(** * The interview-session agent and the sign-in form schema

    A shallow embedding of the [Agent] component (the voice-call session
    agent) and of [authFormSchema] (both [AuthForm] variants).

    The component is a React function component: its state lives in
    [useState] cells, its event handlers are closures over the values of
    one render, and its asynchronous functions are suspended at every
    [await].  The embedding keeps these three aspects apart:

    - a handler is a procedure ([Proc]): the sequence of calls it makes,
      in source order;
    - an [await] ends a procedure with the call awaited and a [Frame],
      the data that is live across the suspension; [resume] is the code
      after the [await];
    - a [Machine] holds the state cells, the listener table of the voice
      SDK, the suspended frames and the armed timers; [step] delivers one
      event of the browser event loop to it. *)

From Stdlib Require Import String List Bool Arith NArith Lia DecimalString.
Import ListNotations.
Local Open Scope list_scope.
Local Open Scope string_scope.

(** ** JavaScript values used by the component *)

(** The line feed used by [join("\n")]. *)
Definition LF : string := String (Ascii.ascii_of_nat 10) EmptyString.

(** A thrown value, as seen by a [catch] clause: an [Error] object, a
    string, or any other value, given by its string conversion and its
    [typeof] ("404" and "number" for the number 404, "null" and "object"
    for [null]). *)
Inductive Thrown : Type :=
| ErrorObject (name message : string)
| ThrownString (s : string)
| ThrownOther (text type_of : string).

(** [new Error(message)] *)
Definition new_Error (message : string) : Thrown := ErrorObject "Error" message.

(** [`${error}`]: the string conversion of a thrown value. *)
Definition String_of_thrown (error : Thrown) : string :=
  match error with
  | ErrorObject name message =>
      if String.eqb message "" then name
      else if String.eqb name "" then message
      else name ++ ": " ++ message
  | ThrownString s => s
  | ThrownOther text _ => text
  end.

(** Truthiness of a value of type [string | undefined]. *)
Definition truthy (v : option string) : bool :=
  match v with
  | Some s => negb (String.eqb s "")
  | None => false
  end.

(** [`${v}`] for a value of type [string | undefined]. *)
Definition show (v : option string) : string :=
  match v with
  | Some s => s
  | None => "undefined"
  end.

(** ** The component's types *)

Inductive CallStatus : Type := INACTIVE | CONNECTING | ACTIVE | FINISHED.

Definition CallStatus_eqb (a b : CallStatus) : bool :=
  match a, b with
  | INACTIVE, INACTIVE | CONNECTING, CONNECTING
  | ACTIVE, ACTIVE | FINISHED, FINISHED => true
  | _, _ => false
  end.

(** The enum's string values, as rendered in ["Status: {callStatus}"]. *)
Definition CallStatus_value (c : CallStatus) : string :=
  match c with
  | INACTIVE => "INACTIVE"
  | CONNECTING => "CONNECTING"
  | ACTIVE => "ACTIVE"
  | FINISHED => "FINISHED"
  end.

Inductive Role : Type := user | system | assistant.

Definition Role_value (r : Role) : string :=
  match r with
  | user => "user"
  | system => "system"
  | assistant => "assistant"
  end.

Module SavedMessage.
Record t : Type := mk { role : Role; content : string }.
End SavedMessage.

Module Message.
Record t : Type := mk {
  type : string;
  transcriptType : option string;
  role : Role;
  transcript : string
}.
End Message.

Inductive AgentType : Type := generate | interview.

Definition AgentType_value (t : AgentType) : string :=
  match t with
  | generate => "generate"
  | interview => "interview"
  end.

Module AgentProps.
Record t : Type := mk {
  userName : string;
  userId : string;
  interviewId : string;
  feedbackId : option string;
  type : AgentType;
  questions : option (list string)
}.
End AgentProps.

(** [process.env], restricted to the two variables the component reads. *)
Record ProcessEnv : Type := {
  NEXT_PUBLIC_VAPI_WORKFLOW_ID : option string;
  NEXT_PUBLIC_VAPI_ASSISTANT_ID : option string
}.

(** The [interviewer] assistant configuration is a constant of
    [@/constants], which is not part of the sources at hand.  The
    component tests it for truthiness and hands it to [vapi.start]; it is
    kept as an opaque handle. *)
Definition Assistant : Type := string.

(** First argument of [vapi.start]: an identifier read from the
    environment (possibly [undefined]) or an assistant object. *)
Inductive StartTarget : Type :=
| TargetId (id : option string)
| TargetAssistant (a : Assistant).

(** Second argument of [vapi.start]: the [variableValues] of the
    overrides object, as key/value pairs in source order. *)
Record StartConfig : Type := { variableValues : list (string * string) }.

(** Argument of [createFeedback]. *)
Module FeedbackParams.
Record t : Type := mk {
  interviewId : string;
  userId : string;
  transcript : list SavedMessage.t;
  feedbackId : option string
}.
End FeedbackParams.

(** ** Outcomes of the awaited promises *)

Inductive MediaResult : Type :=
| MediaGranted
| MediaRejected (micError : Thrown).

Inductive StartResult : Type :=
| StartFulfilled
| StartRejected (error : Thrown).

(** [createFeedback] resolves to an object from which the component
    reads [success] and [feedbackId]. *)
Inductive FeedbackResult : Type :=
| FeedbackFulfilled (success : bool) (feedbackId : option string)
| FeedbackRejected (error : Thrown).

(** ** Listeners, timers, frames *)

(** The six closures created by one run of the subscription effect. *)
Inductive Listener : Type :=
| CallStartFn | CallEndFn | MessageFn | SpeechStartFn | SpeechEndFn | ErrorFn.

Definition Listener_eqb (a b : Listener) : bool :=
  match a, b with
  | CallStartFn, CallStartFn | CallEndFn, CallEndFn | MessageFn, MessageFn
  | SpeechStartFn, SpeechStartFn | SpeechEndFn, SpeechEndFn
  | ErrorFn, ErrorFn => true
  | _, _ => false
  end.

(** A function reference: the closures of two runs of the effect are
    different objects, so a reference is the run together with the
    closure's name. *)
Definition Handler : Type := (nat * Listener)%type.

Definition Handler_eqb (a b : Handler) : bool :=
  Nat.eqb (fst a) (fst b) && Listener_eqb (snd a) (snd b).

Definition TimerId : Type := nat.
Definition TaskId : Type := nat.

(** The callback handed to [setTimeout]; [callStatus] is the value of the
    state cell in the render whose [handleCall] created the callback. *)
Inductive Callback : Type :=
| connectTimeout_callback (callStatus : CallStatus).

(** What is live across each [await]. *)
Inductive Frame : Type :=
| handleCall_getUserMedia (callStatus : CallStatus)
| handleCall_start (connectTimeout : TimerId)
| handleGenerateFeedback_createFeedback.

(** ** Procedures *)

(** The calls a handler makes, named as in the source.  The last three
    return the promises the component awaits; [setTimeout] carries the
    identifier the platform returned. *)
Inductive Action : Type :=
| addDebugLog (log : string)
| console_error (label : string) (error : Thrown)
| alert (text : string)
| router_push (href : string)
| setCallStatus (c : CallStatus)
| setMessages_append (newMessage : SavedMessage.t)
| setIsSpeaking (b : bool)
| setLastMessage (s : string)
| stop_tracks
| vapi_on (event : string) (h : Handler)
| vapi_off (event : string) (h : Handler)
| vapi_stop
| clearTimeout (t : TimerId)
| setTimeout (t : TimerId) (cb : Callback) (ms : N)
| getUserMedia
| vapi_start (target : StartTarget) (config : StartConfig)
| createFeedback (params : FeedbackParams.t).

Inductive Proc : Type :=
| Ret
| Emit (a : Action) (k : Proc)
| Await (call : Action) (frame : Frame)
| SetTimeout (cb : Callback) (ms : N) (k : TimerId -> Proc).

Declare Scope proc_scope.
Delimit Scope proc_scope with proc.
Bind Scope proc_scope with Proc.
Notation "a ;; k" := (Emit a k) (at level 61, right associativity) : proc_scope.
Local Open Scope proc_scope.

(** Sequential composition: [q] runs when [p] returns normally.  A
    procedure suspended at an [await] continues in its frame, not in [q]:
    the caller of an [async] function does not wait for it. *)
Fixpoint seq (p q : Proc) : Proc :=
  match p with
  | Ret => q
  | Emit a k => Emit a (seq k q)
  | Await call frame => Await call frame
  | SetTimeout cb ms k => SetTimeout cb ms (fun t => seq (k t) q)
  end.

Notation "p >> q" := (seq p q) (at level 62, right associativity) : proc_scope.

(** ** The component instance and its surroundings *)

(** The [useState] cells.  [debugLogs] is only ever written; its entries
    are kept without the timestamp [addDebugLog] prefixes. *)
Record AgentState : Type := {
  callStatus : CallStatus;
  messages : list SavedMessage.t;
  isSpeaking : bool;
  lastMessage : string;
  debugLogs : list string
}.

(** The cells together with what the platform holds for the component:
    the SDK's listener table (registrations in order), the frames of the
    suspended [async] calls, and the armed timers. *)
Record Machine : Type := {
  ui : AgentState;
  listeners : list (string * Handler);
  awaiting : list (TaskId * Frame);
  timers : list (TimerId * Callback);
  next_id : nat
}.

Definition with_ui (f : AgentState -> AgentState) (m : Machine) : Machine :=
  {| ui := f (ui m); listeners := listeners m; awaiting := awaiting m;
     timers := timers m; next_id := next_id m |}.

Definition with_listeners
    (f : list (string * Handler) -> list (string * Handler)) (m : Machine) : Machine :=
  {| ui := ui m; listeners := f (listeners m); awaiting := awaiting m;
     timers := timers m; next_id := next_id m |}.

Definition with_timers
    (f : list (TimerId * Callback) -> list (TimerId * Callback)) (m : Machine) : Machine :=
  {| ui := ui m; listeners := listeners m; awaiting := awaiting m;
     timers := f (timers m); next_id := next_id m |}.

Definition with_awaiting
    (f : list (TaskId * Frame) -> list (TaskId * Frame)) (m : Machine) : Machine :=
  {| ui := ui m; listeners := listeners m; awaiting := f (awaiting m);
     timers := timers m; next_id := next_id m |}.

Definition bump (m : Machine) : Machine :=
  {| ui := ui m; listeners := listeners m; awaiting := awaiting m;
     timers := timers m; next_id := S (next_id m) |}.

(** Association lists keyed by identifiers. *)
Fixpoint assoc {A : Type} (k : nat) (l : list (nat * A)) : option A :=
  match l with
  | [] => None
  | (k', v) :: rest => if Nat.eqb k k' then Some v else assoc k rest
  end.

Definition drop {A : Type} (k : nat) (l : list (nat * A)) : list (nat * A) :=
  filter (fun kv => negb (Nat.eqb k (fst kv))) l.

(** *** The SDK's listener table

    [vapi] is an event emitter: [on] appends a registration, [off]
    removes one registration of the given function under the given event,
    the most recently added one, and [emit] calls the functions registered
    under the event's name in registration order. *)

Definition registration_eqb (a b : string * Handler) : bool :=
  String.eqb (fst a) (fst b) && Handler_eqb (snd a) (snd b).

Fixpoint remove_first (x : string * Handler) (l : list (string * Handler))
  : list (string * Handler) :=
  match l with
  | [] => []
  | y :: rest => if registration_eqb x y then rest else y :: remove_first x rest
  end.

Definition emitter_on (event : string) (h : Handler)
    (l : list (string * Handler)) : list (string * Handler) :=
  (l ++ [(event, h)])%list.

Definition emitter_off (event : string) (h : Handler)
    (l : list (string * Handler)) : list (string * Handler) :=
  rev (remove_first (event, h) (rev l)).

Definition registered (event : string) (l : list (string * Handler)) : list Handler :=
  map snd (filter (fun r => String.eqb (fst r) event) l).

(** *** Running a procedure *)

(** The state setters. *)
Definition update (a : Action) (s : AgentState) : AgentState :=
  match a with
  | addDebugLog log =>
      {| callStatus := callStatus s; messages := messages s;
         isSpeaking := isSpeaking s; lastMessage := lastMessage s;
         debugLogs := (debugLogs s ++ [log])%list |}
  | setCallStatus c =>
      {| callStatus := c; messages := messages s;
         isSpeaking := isSpeaking s; lastMessage := lastMessage s;
         debugLogs := debugLogs s |}
  | setMessages_append newMessage =>
      {| callStatus := callStatus s;
         messages := (messages s ++ [newMessage])%list;
         isSpeaking := isSpeaking s; lastMessage := lastMessage s;
         debugLogs := debugLogs s |}
  | setIsSpeaking b =>
      {| callStatus := callStatus s; messages := messages s;
         isSpeaking := b; lastMessage := lastMessage s;
         debugLogs := debugLogs s |}
  | setLastMessage v =>
      {| callStatus := callStatus s; messages := messages s;
         isSpeaking := isSpeaking s; lastMessage := v;
         debugLogs := debugLogs s |}
  | _ => s
  end.

(** The effect of one action on the machine. *)
Definition perform (a : Action) (m : Machine) : Machine :=
  match a with
  | vapi_on event h => with_listeners (emitter_on event h) m
  | vapi_off event h => with_listeners (emitter_off event h) m
  | clearTimeout t => with_timers (drop t) m
  | _ => with_ui (update a) m
  end.

(** Runs a procedure to its end or to its [await]; returns the machine
    and the calls made, in order. *)
Fixpoint exec (p : Proc) (m : Machine) : Machine * list Action :=
  match p with
  | Ret => (m, [])
  | Emit a k =>
      let (m', out) := exec k (perform a m) in (m', a :: out)
  | Await call frame =>
      (bump (with_awaiting (fun l => (l ++ [(next_id m, frame)])%list) (perform call m)),
       [call])
  | SetTimeout cb ms k =>
      let t := next_id m in
      let (m', out) := exec (k t) (bump (with_timers (fun l => (l ++ [(t, cb)])%list) m)) in
      (m', setTimeout t cb ms :: out)
  end.

(** ** The handlers of [Agent]

    Log lines keep the text the source builds from strings and lengths;
    what the source prints with [JSON.stringify], and [error.stack], is
    rendered as [elided]: no behaviour depends on it. *)

Definition elided : string := "...".

(** [`${n}`] for an array length. *)
Definition show_nat (n : nat) : string := NilEmpty.string_of_uint (Nat.to_uint n).

Definition show_bool (b : bool) : string := if b then "true" else "false".

(** [typeof error] *)
Definition typeof (error : Thrown) : string :=
  match error with
  | ErrorObject _ _ => "object"
  | ThrownString _ => "string"
  | ThrownOther _ type_of => type_of
  end.

(** The events the voice SDK emits, with their payload. *)
Inductive VapiEvent : Type :=
| CallStart
| CallEnd
| MessageEvent (m : Message.t)
| SpeechStart
| SpeechEnd
| ErrorEvent (e : Thrown).

Definition event_name (e : VapiEvent) : string :=
  match e with
  | CallStart => "call-start"
  | CallEnd => "call-end"
  | MessageEvent _ => "message"
  | SpeechStart => "speech-start"
  | SpeechEnd => "speech-end"
  | ErrorEvent _ => "error"
  end.

(** The settlement of an awaited promise. *)
Inductive Outcome : Type :=
| media_settled (r : MediaResult)
| start_settled (r : StartResult)
| feedback_settled (r : FeedbackResult).

(** What the event loop delivers to the mounted component. *)
Inductive Event : Type :=
| Click_call
| Click_end (stop_error : option Thrown)
| Settled (task : TaskId) (o : Outcome)
| Timer_fired (t : TimerId)
| Emitted (e : VapiEvent).

Section Agent.

Variable props : AgentProps.t.
Variable env : ProcessEnv.
Variable interviewer : option Assistant.

Local Abbreviation userName := (AgentProps.userName props).
Local Abbreviation userId := (AgentProps.userId props).
Local Abbreviation interviewId := (AgentProps.interviewId props).
Local Abbreviation feedbackId := (AgentProps.feedbackId props).
Local Abbreviation type := (AgentProps.type props).
Local Abbreviation questions := (AgentProps.questions props).

(** *** The subscription effect (first [useEffect]) *)

Definition onCallStart : Proc :=
  addDebugLog "Call started event received";;
  setCallStatus ACTIVE;;
  Ret.

Definition onCallEnd : Proc :=
  addDebugLog "Call ended event received";;
  setCallStatus FINISHED;;
  Ret.

Definition is_final_transcript (message : Message.t) : bool :=
  String.eqb (Message.type message) "transcript"
  && match Message.transcriptType message with
     | Some t => String.eqb t "final"
     | None => false
     end.

Definition onMessage (message : Message.t) : Proc :=
  addDebugLog ("Message received - type: " ++ Message.type message
               ++ ", transcriptType: " ++ show (Message.transcriptType message));;
  addDebugLog ("Message content: " ++ elided);;
  if is_final_transcript message then
    let newMessage :=
      {| SavedMessage.role := Message.role message;
         SavedMessage.content := Message.transcript message |} in
    addDebugLog ("Adding message to transcript: "
                 ++ Role_value (SavedMessage.role newMessage) ++ " - "
                 ++ SavedMessage.content newMessage);;
    setMessages_append newMessage;;
    Ret
  else Ret.

Definition onSpeechStart : Proc :=
  addDebugLog "Speech start event received";;
  setIsSpeaking true;;
  Ret.

Definition onSpeechEnd : Proc :=
  addDebugLog "Speech end event received";;
  setIsSpeaking false;;
  Ret.

Definition onError (error : Thrown) : Proc :=
  addDebugLog ("Error event received: "
               ++ match error with
                  | ErrorObject _ message => message
                  | _ => "undefined"
                  end);;
  console_error "VAPI Error:" error;;
  Ret.

(** The body of the effect for its [run]-th execution.  [vapi] is the
    module-level SDK instance, so the [!vapi] test takes its second
    branch. *)
Definition subscribe (run : nat) : Proc :=
  addDebugLog "Component mounted";;
  addDebugLog ("Props - userName: " ++ userName ++ ", userId: " ++ userId
               ++ ", type: " ++ AgentType_value type);;
  addDebugLog ("InterviewId: " ++ interviewId ++ ", feedbackId: " ++ show feedbackId);;
  addDebugLog ("Questions: " ++ match questions with
                                | Some qs => show_nat (length qs)
                                | None => "none"
                                end);;
  addDebugLog "VAPI is initialized successfully";;
  vapi_on "call-start" (run, CallStartFn);;
  vapi_on "call-end" (run, CallEndFn);;
  vapi_on "message" (run, MessageFn);;
  vapi_on "speech-start" (run, SpeechStartFn);;
  vapi_on "speech-end" (run, SpeechEndFn);;
  vapi_on "error" (run, ErrorFn);;
  Ret.

(** The cleanup function that run of the effect returns. *)
Definition unsubscribe (run : nat) : Proc :=
  addDebugLog "Cleaning up event listeners";;
  vapi_off "call-start" (run, CallStartFn);;
  vapi_off "call-end" (run, CallEndFn);;
  vapi_off "message" (run, MessageFn);;
  vapi_off "speech-start" (run, SpeechStartFn);;
  vapi_off "speech-end" (run, SpeechEndFn);;
  vapi_off "error" (run, ErrorFn);;
  Ret.

(** The SDK calling a registered function with an event.  The first
    five functions ignore arguments they do not declare; a function
    called with a payload of the wrong shape is not modelled. *)
Definition call (l : Listener) (e : VapiEvent) : Proc :=
  match l, e with
  | CallStartFn, _ => onCallStart
  | CallEndFn, _ => onCallEnd
  | MessageFn, MessageEvent m => onMessage m
  | SpeechStartFn, _ => onSpeechStart
  | SpeechEndFn, _ => onSpeechEnd
  | ErrorFn, ErrorEvent err => onError err
  | _, _ => Ret
  end.

(** *** The transcript effect (second [useEffect]) *)

Definition handleGenerateFeedback (messages : list SavedMessage.t) : Proc :=
  addDebugLog "Starting feedback generation";;
  addDebugLog ("Messages count: " ++ show_nat (length messages));;
  Await (createFeedback
           {| FeedbackParams.interviewId := interviewId;
              FeedbackParams.userId := userId;
              FeedbackParams.transcript := messages;
              FeedbackParams.feedbackId := feedbackId |})
        handleGenerateFeedback_createFeedback.

(** [handleGenerateFeedback] after its [await]: the rest of the [try]
    block, or the [catch] block. *)
Definition resume_createFeedback (r : FeedbackResult) : Proc :=
  match r with
  | FeedbackFulfilled success id =>
      addDebugLog ("Feedback creation result - success: " ++ show_bool success
                   ++ ", id: " ++ show id);;
      if success && truthy id then
        addDebugLog ("Redirecting to feedback page: /interview/"
                     ++ interviewId ++ "/feedback");;
        router_push ("/interview/" ++ interviewId ++ "/feedback");;
        Ret
      else
        addDebugLog "Error saving feedback - redirecting to home";;
        router_push "/";;
        Ret
  | FeedbackRejected error =>
      addDebugLog ("Error in handleGenerateFeedback: " ++ String_of_thrown error);;
      console_error "Feedback generation error:" error;;
      router_push "/";;
      Ret
  end.

(** The effect body, for the render in which the state cells hold
    [messages] and [callStatus]. *)
Definition transcript_effect
    (messages : list SavedMessage.t) (callStatus : CallStatus) : Proc :=
  (if (0 <? length messages)%nat then
     match nth_error messages (length messages - 1) with
     | Some m =>
         let lastMsg := SavedMessage.content m in
         addDebugLog ("Setting last message: " ++ lastMsg);;
         setLastMessage lastMsg;;
         Ret
     | None => Ret (* not reached: the index is in range *)
     end
   else Ret) >>
  (if CallStatus_eqb callStatus FINISHED then
     addDebugLog ("Call finished - type: " ++ AgentType_value type);;
     match type with
     | generate =>
         addDebugLog "Generate type - redirecting to home";;
         router_push "/";;
         Ret
     | interview =>
         addDebugLog "Interview type - generating feedback";;
         handleGenerateFeedback messages
     end
   else Ret).

(** *** [handleCall] *)

(** The function passed to [setTimeout]. *)
Definition run_callback (cb : Callback) : Proc :=
  match cb with
  | connectTimeout_callback callStatus =>
      if CallStatus_eqb callStatus CONNECTING then
        addDebugLog "Connection timeout - resetting to inactive";;
        setCallStatus INACTIVE;;
        Ret
      else Ret
  end.

(** [errorMessage] in the [catch] block of [handleCall]. *)
Definition errorMessage (error : Thrown) : string :=
  match error with
  | ErrorObject _ message => message
  | ThrownString s => s
  | ThrownOther _ _ => "Unhandled error. Check console for details."
  end.

(** The [catch] block of [handleCall]. *)
Definition handleCall_catch (connectTimeout : TimerId) (error : Thrown) : Proc :=
  clearTimeout connectTimeout;;
  addDebugLog ("ERROR starting VAPI call: " ++ String_of_thrown error);;
  addDebugLog ("Error type: " ++ typeof error);;
  addDebugLog ("Error object: " ++ elided);;
  console_error "Error starting VAPI call:" error;;
  setCallStatus INACTIVE;;
  match error with
  | ErrorObject name message =>
      addDebugLog ("Error name: " ++ name);;
      addDebugLog ("Error message: " ++ message);;
      addDebugLog ("Error stack: " ++ elided);;
      Ret
  | _ =>
      addDebugLog ("Non-Error object thrown: " ++ String_of_thrown error);;
      Ret
  end >>
  alert ("Failed to start call: " ++ errorMessage error);;
  Ret.

(** [handleCall] after [await vapi.start(...)]. *)
Definition resume_start (connectTimeout : TimerId) (r : StartResult) : Proc :=
  match r with
  | StartFulfilled =>
      addDebugLog ("VAPI start result: " ++ elided);;
      addDebugLog match type with
                  | generate => "VAPI started successfully with workflow ID"
                  | interview => "VAPI started successfully with interviewer config"
                  end;;
      clearTimeout connectTimeout;;
      Ret
  | StartRejected error => handleCall_catch connectTimeout error
  end.

(** [questions.map((question) => `- ${question}`).join("\n")] *)
Definition format_questions (qs : list string) : string :=
  String.concat LF (map (fun question => "- " ++ question) qs).

(** The [try] block of [handleCall], up to its [await]. *)
Definition handleCall_try (connectTimeout : TimerId) : Proc :=
  match type with
  | generate =>
      addDebugLog "Starting VAPI with workflow ID";;
      if negb (truthy (NEXT_PUBLIC_VAPI_WORKFLOW_ID env)) then
        handleCall_catch connectTimeout
          (new_Error "NEXT_PUBLIC_VAPI_WORKFLOW_ID is not set")
      else
        let config :=
          {| variableValues := [("userName", userName); ("userid", userId)] |} in
        addDebugLog ("Workflow ID: " ++ show (NEXT_PUBLIC_VAPI_WORKFLOW_ID env));;
        addDebugLog ("Workflow config: " ++ elided);;
        addDebugLog "Testing VAPI connection...";;
        Await (vapi_start (TargetId (NEXT_PUBLIC_VAPI_ASSISTANT_ID env)) config)
              (handleCall_start connectTimeout)
  | interview =>
      addDebugLog "Starting VAPI with interviewer config";;
      let formattedQuestions :=
        match questions with
        | Some ((_ :: _) as qs) => format_questions qs
        | _ => ""
        end in
      addDebugLog match questions with
                  | Some (_ :: _) => "Formatted questions: " ++ formattedQuestions
                  | _ => "No questions provided"
                  end;;
      match interviewer with
      | None =>
          handleCall_catch connectTimeout
            (new_Error "Interviewer configuration is not available")
      | Some the_interviewer =>
          let config := {| variableValues := [("questions", formattedQuestions)] |} in
          addDebugLog ("Interviewer config: " ++ elided);;
          addDebugLog ("Interviewer object: " ++ elided);;
          Await (vapi_start (TargetAssistant the_interviewer) config)
                (handleCall_start connectTimeout)
      end
  end.

(** [handleCall] after [await getUserMedia(...)]; [callStatus] is the
    state cell as the closure sees it. *)
Definition resume_getUserMedia (callStatus : CallStatus) (r : MediaResult) : Proc :=
  match r with
  | MediaRejected micError =>
      addDebugLog ("Microphone permission error: " ++ String_of_thrown micError);;
      alert "Microphone access is required for the interview. Please grant permission and try again.";;
      Ret
  | MediaGranted =>
      addDebugLog "Microphone permission granted";;
      stop_tracks;;
      setCallStatus CONNECTING;;
      SetTimeout (connectTimeout_callback callStatus) 10000%N
        (fun connectTimeout => handleCall_try connectTimeout)
  end.

(** [handleCall], created in a render in which the state cell holds
    [callStatus]. *)
Definition handleCall (callStatus : CallStatus) : Proc :=
  addDebugLog "=== Starting call process ===";;
  addDebugLog ("Call type: " ++ AgentType_value type);;
  addDebugLog "Environment variables check:";;
  addDebugLog ("- NEXT_PUBLIC_VAPI_WORKFLOW_ID: "
               ++ if truthy (NEXT_PUBLIC_VAPI_WORKFLOW_ID env) then "Set" else "Not set");;
  Await getUserMedia (handleCall_getUserMedia callStatus).

(** [handleDisconnect]; [stop_error] is what [vapi.stop()] throws, if
    it throws. *)
Definition handleDisconnect (stop_error : option Thrown) : Proc :=
  addDebugLog "Disconnecting call";;
  setCallStatus FINISHED;;
  vapi_stop;;
  match stop_error with
  | None =>
      addDebugLog "VAPI stopped successfully";;
      Ret
  | Some error =>
      addDebugLog ("Error stopping VAPI: " ++ String_of_thrown error);;
      console_error "Error stopping VAPI:" error;;
      Ret
  end.

(** *** The event loop *)

Definition resume (frame : Frame) (o : Outcome) : option Proc :=
  match frame, o with
  | handleCall_getUserMedia callStatus, media_settled r =>
      Some (resume_getUserMedia callStatus r)
  | handleCall_start connectTimeout, start_settled r =>
      Some (resume_start connectTimeout r)
  | handleGenerateFeedback_createFeedback, feedback_settled r =>
      Some (resume_createFeedback r)
  | _, _ => None
  end.

Fixpoint seq_all (ps : list Proc) : Proc :=
  match ps with
  | [] => Ret
  | p :: rest => p >> seq_all rest
  end.

(** [vapi] emitting [e]: every function registered under the event's
    name is called, in registration order. *)
Definition emit (e : VapiEvent) (l : list (string * Handler)) : Proc :=
  seq_all (map (fun h => call (snd h) e) (registered (event_name e) l)).

(** The code an event starts, if the event can occur: the call button
    is rendered (and calls [handleCall]) while the status is not
    [ACTIVE], the end button (calling [handleDisconnect]) while it is;
    a promise settles if its frame is suspended, with an outcome of its
    kind; a timer fires if it is armed. *)
Definition handler (m : Machine) (ev : Event) : option Proc :=
  match ev with
  | Click_call =>
      if CallStatus_eqb (callStatus (ui m)) ACTIVE then None
      else Some (handleCall (callStatus (ui m)))
  | Click_end stop_error =>
      if CallStatus_eqb (callStatus (ui m)) ACTIVE
      then Some (handleDisconnect stop_error) else None
  | Settled task o =>
      match assoc task (awaiting m) with
      | Some frame => resume frame o
      | None => None
      end
  | Timer_fired t =>
      match assoc t (timers m) with
      | Some cb => Some (run_callback cb)
      | None => None
      end
  | Emitted e => Some (emit e (listeners m))
  end.

(** A settled frame and a fired timer are gone. *)
Definition consume (ev : Event) (m : Machine) : Machine :=
  match ev with
  | Settled task _ => with_awaiting (drop task) m
  | Timer_fired t => with_timers (drop t) m
  | _ => m
  end.

(** The dependencies of the transcript effect that can change while
    the props are fixed: [messages] (a new array whenever
    [setMessages] appends) and [callStatus]. *)
Definition deps_changed (before after : AgentState) : bool :=
  negb (Nat.eqb (length (messages before)) (length (messages after)))
  || negb (CallStatus_eqb (callStatus before) (callStatus after)).

(** The render that follows a handler: the transcript effect runs
    again if one of its dependencies changed. *)
Definition rerender (before : AgentState) (m : Machine) : Machine * list Action :=
  if deps_changed before (ui m)
  then exec (transcript_effect (messages (ui m)) (callStatus (ui m))) m
  else (m, []).

(** One turn of the event loop; [None] if the event cannot occur. *)
Definition step (m : Machine) (ev : Event) : option (Machine * list Action) :=
  match handler m ev with
  | None => None
  | Some p =>
      let (m1, out1) := exec p (consume ev m) in
      let (m2, out2) := rerender (ui m) m1 in
      Some (m2, (out1 ++ out2)%list)
  end.

(** The component before its first render. *)
Definition initial : Machine :=
  {| ui := {| callStatus := INACTIVE; messages := []; isSpeaking := false;
              lastMessage := ""; debugLogs := [] |};
     listeners := []; awaiting := []; timers := []; next_id := 0 |}.

(** Mounting runs both effects once; unmounting runs the cleanup of
    the subscription effect. *)
Definition mount (run : nat) (m : Machine) : Machine * list Action :=
  let (m1, out1) := exec (subscribe run) m in
  let (m2, out2) := exec (transcript_effect (messages (ui m1)) (callStatus (ui m1))) m1 in
  (m2, (out1 ++ out2)%list).

Definition unmount (run : nat) (m : Machine) : Machine * list Action :=
  exec (unsubscribe run) m.

(** The machines a mounted component goes through. *)
Inductive reachable : Machine -> Prop :=
| reachable_mount : reachable (fst (mount 0 initial))
| reachable_step m ev m' out :
    reachable m -> step m ev = Some (m', out) -> reachable m'.

(** Running a list of events, collecting the calls made. *)
Fixpoint steps (m : Machine) (evs : list Event) : option (Machine * list Action) :=
  match evs with
  | [] => Some (m, [])
  | ev :: rest =>
      match step m ev with
      | None => None
      | Some (m', out) =>
          match steps m' rest with
          | None => None
          | Some (m'', out') => Some (m'', (out ++ out')%list)
          end
      end
  end.

End Agent.

(** * Form validation *)

(** The part of the schema library [authFormSchema] uses.  A string is
    its sequence of code units, [String.length] their number. *)
Module Zod.

(** A submitted field: absent, a string, or a value of another type
    (named by its [typeof]). *)
Inductive Value : Type :=
| undefined
| str (s : string)
| other (received : string).

Inductive StringCheck : Type :=
| min (minLength : nat) (message : string)
| email (message : string).

Inductive Schema : Type :=
| string_ (checks : list StringCheck)
| optional (inner : Schema).

Record Issue : Type := { code : string; message : string }.

Section Parse.

(** The library's test for an email address. *)
Variable is_email : string -> bool.

Definition run_check (c : StringCheck) (s : string) : list Issue :=
  match c with
  | min minLength message =>
      if (String.length s <? minLength)%nat
      then [{| code := "too_small"; message := message |}]
      else []
  | email message =>
      if is_email s then []
      else [{| code := "invalid_string"; message := message |}]
  end.

Fixpoint parse (schema : Schema) (v : Value) : list Issue :=
  match schema with
  | string_ checks =>
      match v with
      | str s => flat_map (fun c => run_check c s) checks
      | undefined => [{| code := "invalid_type"; message := "Required" |}]
      | other received =>
          [{| code := "invalid_type";
              message := "Expected string, received " ++ received |}]
      end
  | optional inner =>
      match v with
      | undefined => []
      | _ => parse inner v
      end
  end.

End Parse.

End Zod.

Inductive FormType : Type := sign_in | sign_up.

(** The object schema of the form and a submission of it. *)
Record AuthSchema : Type := {
  name_schema : Zod.Schema;
  email_schema : Zod.Schema;
  password_schema : Zod.Schema
}.

Record AuthData : Type := {
  name : Zod.Value;
  email : Zod.Value;
  password : Zod.Value
}.

(** [z.object({...}).safeParse(data)]: the issues of the three fields;
    the submission is accepted when there is none. *)
Definition safeParse (is_email : string -> bool) (schema : AuthSchema) (data : AuthData)
  : list Zod.Issue :=
  (Zod.parse is_email (name_schema schema) (name data)
   ++ Zod.parse is_email (email_schema schema) (email data)
   ++ Zod.parse is_email (password_schema schema) (password data))%list.

Definition accepts (is_email : string -> bool) (schema : AuthSchema) (data : AuthData)
  : bool :=
  match safeParse is_email schema data with
  | [] => true
  | _ :: _ => false
  end.

(** [src/components/AuthForm.tsx] *)
Module AuthForm.

Definition authFormSchema (type : FormType) : AuthSchema :=
  {| name_schema :=
       match type with
       | sign_up => Zod.string_ [Zod.min 3 "Name must be at least 3 characters"]
       | sign_in => Zod.optional (Zod.string_ [])
       end;
     email_schema := Zod.string_ [Zod.email "Please enter a valid email address"];
     password_schema :=
       Zod.string_ [Zod.min 8 "Password must be at least 8 characters"] |}.

End AuthForm.

(** The [AuthForm] that signs in through Firebase. *)
Module FirebaseAuthForm.

Definition authFormSchema (type : FormType) : AuthSchema :=
  {| name_schema :=
       match type with
       | sign_up => Zod.string_ [Zod.min 3 "Name must be at least 3 characters"]
       | sign_in => Zod.optional (Zod.string_ [])
       end;
     email_schema := Zod.string_ [Zod.email "Please enter a valid email address"];
     password_schema :=
       Zod.string_ [Zod.min 6 "Password must be at least 6 characters"] |}.

End FirebaseAuthForm.

(** A field that holds a valid email address. *)
Definition valid_email (is_email : string -> bool) (v : Zod.Value) : Prop :=
  exists s, v = Zod.str s /\ is_email s = true.

(** A field that holds a string of at least [n] code units. *)
Definition at_least (n : nat) (v : Zod.Value) : Prop :=
  exists s, v = Zod.str s /\ n <= String.length s.

(** * Submitting the form

    [onSubmit] of the [AuthForm] that signs in through Firebase.  It is
    one [async] function with a [try]/[catch]/[finally]; it is embedded
    as a script: the effects it has and the calls it awaits, each with
    the code that follows for either settlement. *)
Module Submit.

(** [userCredential.user], as far as the form reads it. *)
Record UserCredential : Type := { uid : string }.

(** What the [signUp] action resolves to. *)
Record SignUpResult : Type := { success : bool; message : string }.

(** A thrown value on which [error.code] can be read: its [code], if it
    has one. *)
Record AuthError : Type := { code : option string }.

(** What the [catch] clause receives; its parameter is typed [any].  On
    [null] and [undefined] reading [error.code] throws a [TypeError]; on
    every other value it gives the code or [undefined]. *)
Inductive Caught : Type :=
| nullish
| thrown (error : AuthError).

(** The validated form data. *)
Record FormValues : Type := {
  name : option string;
  email : string;
  password : string
}.

Record SignUpParams : Type := {
  signUp_uid : string;
  signUp_name : option string;
  signUp_email : string;
  signUp_password : string
}.

Record SignInParams : Type := {
  signIn_email : string;
  signIn_idToken : string
}.

Inductive Settled (A : Type) : Type :=
| Fulfilled (v : A)
| Rejected (error : Caught).

Arguments Fulfilled {A} v.
Arguments Rejected {A} error.

(** The two calls to Firebase that resolve to a credential. *)
Inductive FirebaseCall : Type :=
| createUserWithEmailAndPassword (email password : string)
| signInWithEmailAndPassword (email password : string).

Inductive Effect : Type :=
| setIsLoading (b : bool)
| toast_error (text : string)
| toast_success (text : string)
| router_push (href : string)
| console_error (label : string) (error : Caught).

(** A script: effects, and awaited calls with the code that follows
    their settlement.  It ends by returning ([Done]) or with an exception
    that leaves [onSubmit] ([Throw]). *)
Inductive Script : Type :=
| Done
| Throw
| Do (e : Effect) (k : Script)
| AwaitFirebase (call : FirebaseCall) (k : Settled UserCredential -> Script)
| AwaitIdToken (account : UserCredential) (k : Settled string -> Script)
| AwaitSignUp (params : SignUpParams) (k : Settled SignUpResult -> Script)
| AwaitSignIn (params : SignInParams) (k : Settled unit -> Script).

(** The message shown for a thrown value. *)
Definition errorMessage (error : AuthError) : string :=
  match code error with
  | Some c =>
      if String.eqb c "auth/email-already-in-use"
      then "This email is already registered. Please sign in instead."
      else if String.eqb c "auth/weak-password"
      then "Password is too weak. Please use a stronger password."
      else if String.eqb c "auth/user-not-found"
      then "No account found with this email address."
      else if String.eqb c "auth/wrong-password"
      then "Incorrect password. Please try again."
      else if String.eqb c "auth/invalid-email"
      then "Please enter a valid email address."
      else "An unexpected error occurred. Please try again."
  | None => "An unexpected error occurred. Please try again."
  end.

(** The [finally] block. *)
Definition finally_block : Script := Do (setIsLoading false) Done.

(** The [catch] block, followed by the [finally] block.  The error is
    logged first; the first comparison of [error.code] then throws if the
    value is [null] or [undefined]: the [finally] block still runs, no
    toast is shown and the [TypeError] leaves [onSubmit]. *)
Definition catch_block (error : Caught) : Script :=
  Do (console_error "Auth error:" error)
     match error with
     | nullish => Do (setIsLoading false) Throw
     | thrown e => Do (toast_error (errorMessage e)) finally_block
     end.

(** The code after an [await] inside the [try] block: a rejection goes
    to [catch]. *)
Definition try_ {A : Type} (k : A -> Script) (r : Settled A) : Script :=
  match r with
  | Fulfilled v => k v
  | Rejected error => catch_block error
  end.

Definition onSubmit (type : FormType) (data : FormValues) : Script :=
  Do (setIsLoading true)
     match type with
     | sign_up =>
         AwaitFirebase (createUserWithEmailAndPassword (email data) (password data))
           (try_ (fun userCredential =>
              AwaitSignUp {| signUp_uid := uid userCredential;
                             signUp_name := name data;
                             signUp_email := email data;
                             signUp_password := password data |}
                (try_ (fun result =>
                   if negb (success result) then
                     Do (toast_error (message result)) finally_block
                   else
                     Do (toast_success "Account created successfully! Please sign in.")
                        (Do (router_push "/sign-in") finally_block)))))
     | sign_in =>
         AwaitFirebase (signInWithEmailAndPassword (email data) (password data))
           (try_ (fun userCredential =>
              AwaitIdToken userCredential
                (try_ (fun idToken =>
                   if String.eqb idToken "" then
                     Do (toast_error "Sign in failed. Please try again.") finally_block
                   else
                     AwaitSignIn {| signIn_email := email data;
                                    signIn_idToken := idToken |}
                       (try_ (fun _ =>
                          Do (toast_success "Welcome back!")
                             (Do (router_push "/") finally_block)))))))
     end.

(** How each call settles. *)
Record Backend : Type := {
  firebase : FirebaseCall -> Settled UserCredential;
  getIdToken : UserCredential -> Settled string;
  signUp : SignUpParams -> Settled SignUpResult;
  signIn : SignInParams -> Settled unit
}.

(** What a run of a script leaves behind: its effects, and its calls
    with their settlement. *)
Inductive Entry : Type :=
| did (e : Effect)
| called_firebase (call : FirebaseCall) (r : Settled UserCredential)
| called_getIdToken (account : UserCredential) (r : Settled string)
| called_signUp (params : SignUpParams) (r : Settled SignUpResult)
| called_signIn (params : SignInParams) (r : Settled unit).

Fixpoint run (s : Script) (backend : Backend) : list Entry :=
  match s with
  | Done => []
  | Throw => []
  | Do e k => did e :: run k backend
  | AwaitFirebase call k =>
      called_firebase call (firebase backend call)
      :: run (k (firebase backend call)) backend
  | AwaitIdToken account k =>
      called_getIdToken account (getIdToken backend account)
      :: run (k (getIdToken backend account)) backend
  | AwaitSignUp params k =>
      called_signUp params (signUp backend params)
      :: run (k (signUp backend params)) backend
  | AwaitSignIn params k =>
      called_signIn params (signIn backend params)
      :: run (k (signIn backend params)) backend
  end.

(** Whether a run returns ([true]) or ends with an exception. *)
Fixpoint returns (s : Script) (backend : Backend) : bool :=
  match s with
  | Done => true
  | Throw => false
  | Do _ k => returns k backend
  | AwaitFirebase call k => returns (k (firebase backend call)) backend
  | AwaitIdToken account k => returns (k (getIdToken backend account)) backend
  | AwaitSignUp params k => returns (k (signUp backend params)) backend
  | AwaitSignIn params k => returns (k (signIn backend params)) backend
  end.

(** Readings of a run. *)
Definition effects (trace : list Entry) : list Effect :=
  flat_map (fun x => match x with did e => [e] | _ => [] end) trace.

Definition toasts (trace : list Entry) : list Effect :=
  filter (fun e => match e with toast_error _ | toast_success _ => true | _ => false end)
         (effects trace).

Definition pushes (trace : list Entry) : list string :=
  flat_map (fun e => match e with router_push href => [href] | _ => [] end)
           (effects trace).

Definition loading_writes (trace : list Entry) : list bool :=
  flat_map (fun e => match e with setIsLoading b => [b] | _ => [] end)
           (effects trace).

Definition logged_errors (trace : list Entry) : list Caught :=
  flat_map (fun e => match e with console_error _ error => [error] | _ => [] end)
           (effects trace).

Definition rejections (trace : list Entry) : list Caught :=
  flat_map (fun x => match x with
                     | called_firebase _ (Rejected error)
                     | called_getIdToken _ (Rejected error)
                     | called_signUp _ (Rejected error)
                     | called_signIn _ (Rejected error) => [error]
                     | _ => []
                     end) trace.

Definition signUp_calls (trace : list Entry) : list SignUpParams :=
  flat_map (fun x => match x with called_signUp params _ => [params] | _ => [] end)
           trace.

Definition signIn_calls (trace : list Entry) : list SignInParams :=
  flat_map (fun x => match x with called_signIn params _ => [params] | _ => [] end)
           trace.

(** The email and password handed to Firebase, to create an account or
    to sign in. *)
Definition firebase_calls (trace : list Entry) : list (string * string) :=
  flat_map (fun x => match x with
                     | called_firebase (createUserWithEmailAndPassword e p) _
                     | called_firebase (signInWithEmailAndPassword e p) _ => [(e, p)]
                     | _ => []
                     end) trace.

End Submit.

(** The form's fields as [onSubmit] receives them once the schema has
    accepted them. *)
Definition submitted_values (data : AuthData) : Submit.FormValues :=
  {| Submit.name := match name data with Zod.str s => Some s | _ => None end;
     Submit.email := match email data with Zod.str s => s | _ => "" end;
     Submit.password := match password data with Zod.str s => s | _ => "" end |}.

(** [form.handleSubmit(onSubmit)] with the schema as resolver: the form
    library validates the fields and calls [onSubmit] only if the schema
    accepts them. *)
Definition handleSubmit (is_email : string -> bool) (type : FormType)
    (data : AuthData) (backend : Submit.Backend) : list Submit.Entry :=
  if accepts is_email (FirebaseAuthForm.authFormSchema type) data
  then Submit.run (Submit.onSubmit type (submitted_values data)) backend
  else [].

(** * The home page

    [Home] is an [async] server component: it awaits the current user,
    then both interview queries together, and returns the page.  The
    page is embedded up to what depends on the data: which of the two
    layouts is returned, and for each of the two sections its cards or
    its empty state. *)
Module HomePage.

Record User : Type := { id : string }.

Record Interview : Type := {
  interview_id : string;
  role : string;
  type : string;
  techstack : list string;
  createdAt : string
}.

(** The props of an [InterviewCard]. *)
Record InterviewCard : Type := {
  card_userId : string;
  card_interviewId : string;
  card_role : string;
  card_type : string;
  card_techstack : list string;
  card_createdAt : string
}.

Inductive Section : Type :=
| Cards (cards : list InterviewCard)
| EmptyState.

Inductive Page : Type :=
| LoginPrompt
| Dashboard (history available : Section).

(** The queries [Home] makes. *)
Inductive Query : Type :=
| getInterviewsByUserId (userId : string)
| getLatestInterviews (userId : string).

(** A query resolves to a list or to [null], or it is rejected. *)
Inductive Answer : Type :=
| Resolved (interviews : option (list Interview))
| Failed.

(** [Home] returns a page, or throws when [Promise.all] is rejected. *)
Inductive Outcome : Type :=
| Rendered (page : Page)
| Threw.

Definition card (user : User) (interview : Interview) : InterviewCard :=
  {| card_userId := id user;
     card_interviewId := interview_id interview;
     card_role := role interview;
     card_type := type interview;
     card_techstack := techstack interview;
     card_createdAt := createdAt interview |}.

(** One section: [has ? list?.map(card) : empty state], where [has] is
    [list && list.length > 0]. *)
Definition section (user : User) (interviews : option (list Interview)) : Section :=
  match interviews with
  | Some l => if (0 <? length l)%nat then Cards (map (card user) l) else EmptyState
  | None => EmptyState
  end.

(** [Home], given what [getCurrentUser] resolved to and how the backend
    answers a query: the queries made, in order, and the outcome. *)
Definition Home (user : option User) (backend : Query -> Answer)
  : list Query * Outcome :=
  match user with
  | None => ([], Rendered LoginPrompt)
  | Some u =>
      if String.eqb (id u) "" then ([], Rendered LoginPrompt)
      else
        let queries := [getInterviewsByUserId (id u); getLatestInterviews (id u)] in
        match backend (getInterviewsByUserId (id u)),
              backend (getLatestInterviews (id u)) with
        | Resolved userInterviews, Resolved allInterview =>
            (queries,
             Rendered (Dashboard (section u userInterviews) (section u allInterview)))
        | _, _ => (queries, Threw)
        end
  end.

(** The cards of a section. *)
Definition cards_of (s : Section) : list InterviewCard :=
  match s with
  | Cards cards => cards
  | EmptyState => []
  end.

End HomePage.

(** * Vocabulary of the properties *)

(** The state cells after a sequence of calls. *)
Fixpoint replay (out : list Action) (s : AgentState) : AgentState :=
  match out with
  | [] => s
  | a :: rest => replay rest (update a s)
  end.

(** Every call a procedure can make satisfies [P]. *)
Fixpoint only (P : Action -> Prop) (p : Proc) : Prop :=
  match p with
  | Ret => True
  | Emit a k => P a /\ only P k
  | Await call _ => P call
  | SetTimeout cb ms k => forall t, P (setTimeout t cb ms) /\ only P (k t)
  end.



Definition start_calls (out : list Action) : list (StartTarget * StartConfig) :=
  flat_map (fun a => match a with vapi_start t c => [(t, c)] | _ => [] end) out.

Definition feedback_calls (out : list Action) : list FeedbackParams.t :=
  flat_map (fun a => match a with createFeedback p => [p] | _ => [] end) out.

Definition pushes (out : list Action) : list string :=
  flat_map (fun a => match a with router_push href => [href] | _ => [] end) out.

Definition alerts (out : list Action) : list string :=
  flat_map (fun a => match a with alert text => [text] | _ => [] end) out.

Definition status_writes (out : list Action) : list CallStatus :=
  flat_map (fun a => match a with setCallStatus c => [c] | _ => [] end) out.


Definition console_errors (out : list Action) : list (string * Thrown) :=
  flat_map (fun a => match a with console_error l e => [(l, e)] | _ => [] end) out.

(** The six registrations of one run of the effect. *)
Definition subscriptions (run : nat) : list (string * Handler) :=
  [ ("call-start", (run, CallStartFn));
    ("call-end", (run, CallEndFn));
    ("message", (run, MessageFn));
    ("speech-start", (run, SpeechStartFn));
    ("speech-end", (run, SpeechEndFn));
    ("error", (run, ErrorFn)) ].

(** The entries a sequence of calls appends to the transcript. *)
Definition appended (out : list Action) : list SavedMessage.t :=
  flat_map (fun a => match a with setMessages_append x => [x] | _ => [] end) out.

(** The entry [onMessage] builds from a message. *)
Definition saved (message : Message.t) : SavedMessage.t :=
  {| SavedMessage.role := Message.role message;
     SavedMessage.content := Message.transcript message |}.

(** The calls made outside the two effects: no registration, no write to
    [lastMessage], no [createFeedback]. *)
Definition handler_action (a : Action) : Prop :=
  match a with
  | vapi_on _ _ | vapi_off _ _ | setLastMessage _ | createFeedback _ => False
  | _ => True
  end.

(** The calls of the transcript effect. *)
Definition effect_action (a : Action) : Prop :=
  match a with
  | addDebugLog _ | setLastMessage _ | router_push _ | createFeedback _ => True
  | _ => False
  end.

Definition keeps_listeners (a : Action) : Prop :=
  match a with
  | vapi_on _ _ | vapi_off _ _ => False
  | _ => True
  end.

(** The argument [handleGenerateFeedback] passes to [createFeedback]. *)
Definition feedback_params (props : AgentProps.t) (transcript : list SavedMessage.t)
  : FeedbackParams.t :=
  {| FeedbackParams.interviewId := AgentProps.interviewId props;
     FeedbackParams.userId := AgentProps.userId props;
     FeedbackParams.transcript := transcript;
     FeedbackParams.feedbackId := AgentProps.feedbackId props |}.

(** The identifiers of the suspended frames are below the next one to
    be handed out. *)
Definition ids_fresh (m : Machine) : Prop :=
  Forall (fun kv => fst kv < next_id m) (awaiting m).

(** A fulfilled result that carries [success] and a feedback id. *)
Definition saved_feedback (r : FeedbackResult) : Prop :=
  exists id, r = FeedbackFulfilled true (Some id) /\ id <> "".

(** The calls of a sequence other than debug logging. *)
Definition besides_logs (out : list Action) : list Action :=
  filter (fun a => match a with addDebugLog _ => false | _ => true end) out.

Definition demo_interview : AgentProps.t :=
  AgentProps.mk "Ada" "user-1" "interview-1" None interview
                (Some ["Tell me about yourself"]).

Definition demo_generate : AgentProps.t :=
  AgentProps.mk "Ada" "user-1" "interview-1" None generate None.

Definition demo_env : ProcessEnv :=
  {| NEXT_PUBLIC_VAPI_WORKFLOW_ID := Some "wf-123";
     NEXT_PUBLIC_VAPI_ASSISTANT_ID := Some "asst-456" |}.

Definition demo_interviewer : option Assistant := Some "interviewer".

(** The machine a freshly mounted component is in after the given events
    (the initial machine if one of them cannot occur). *)
Definition after (props : AgentProps.t) (env : ProcessEnv)
    (interviewer : option Assistant) (evs : list Event) : Machine :=
  match steps props env interviewer (fst (mount props 0 initial)) evs with
  | Some (m, _) => m
  | None => initial
  end.


(** The order of a successful call. *)
Definition linear_next (a b : CallStatus) : Prop :=
  (a = INACTIVE /\ b = CONNECTING)
  \/ (a = CONNECTING /\ b = ACTIVE)
  \/ (a = ACTIVE /\ b = FINISHED).

(** The writes to the status each event makes, in order. *)
Definition writes_allowed (ev : Event) (ws : list CallStatus) : Prop :=
  match ev with
  | Click_call => ws = []
  | Click_end _ => ws = [FINISHED]
  | Settled _ (media_settled MediaGranted) =>
      ws = [CONNECTING] \/ ws = [CONNECTING; INACTIVE]
  | Settled _ (start_settled (StartRejected _)) => ws = [INACTIVE]
  | Settled _ _ => ws = []
  | Timer_fired _ => ws = [] \/ ws = [INACTIVE]
  | Emitted CallStart => ws = [ACTIVE]
  | Emitted CallEnd => ws = [FINISHED]
  | Emitted _ => ws = []
  end.

Definition demo_message : Message.t :=
  Message.mk "transcript" (Some "final") user "I led the migration.".

(** An active call with one transcript entry. *)
Definition demo_active : Machine :=
  after demo_interview demo_env demo_interviewer
        [Click_call; Settled 0 (media_settled MediaGranted); Emitted CallStart;
         Emitted (MessageEvent demo_message)].

(** The result of a turn (the machine itself if the event cannot occur). *)
Definition turn (props : AgentProps.t) (env : ProcessEnv)
    (interviewer : option Assistant) (m : Machine) (ev : Event)
  : Machine * list Action :=
  match step props env interviewer m ev with
  | Some r => r
  | None => (m, [])
  end.

Definition demo_is_email (s : string) : bool := String.eqb s "ada@example.com".

Definition demo_sign_in : AuthData :=
  {| name := Zod.undefined; email := Zod.str "ada@example.com";
     password := Zod.str "correct horse" |}.

Definition demo_sign_up : AuthData :=
  {| name := Zod.str "Al"; email := Zod.str "ada@example.com";
     password := Zod.str "correct horse" |}.

Definition demo_bad_email : AuthData :=
  {| name := Zod.str "Ada"; email := Zod.str "ada.example.com";
     password := Zod.str "correct horse" |}.

(** The writes to [isSpeaking] in a sequence of calls. *)
Definition speaking_writes (out : list Action) : list bool :=
  flat_map (fun a => match a with setIsSpeaking b => [b] | _ => [] end) out.

(** The number of [vapi.stop()] calls in a sequence of calls. *)
Definition stop_calls (out : list Action) : nat :=
  length (filter (fun a => match a with vapi_stop => true | _ => false end) out).

(** Calls that neither arm nor clear a timer. *)
Definition keeps_timers (a : Action) : Prop :=
  match a with
  | clearTimeout _ | setTimeout _ _ _ => False
  | _ => True
  end.

(** Calls other than [router.push]. *)
Definition stays (a : Action) : Prop :=
  match a with
  | router_push _ => False
  | _ => True
  end.

(** Calls other than [vapi.start]. *)
Definition starts_nothing (a : Action) : Prop :=
  match a with
  | vapi_start _ _ => False
  | _ => True
  end.

(** [formattedQuestions] in [handleCall]. *)
Definition formattedQuestions (questions : option (list string)) : string :=
  match questions with
  | Some qs => format_questions qs
  | None => ""
  end.

(** What a schema asks of the name field. *)
Definition name_ok (type : FormType) (v : Zod.Value) : Prop :=
  match type with
  | sign_up => at_least 3 v
  | sign_in => v = Zod.undefined \/ exists s, v = Zod.str s
  end.

(** A backend on which every call is fulfilled. *)
Definition demo_backend : Submit.Backend :=
  {| Submit.firebase := fun _ => Submit.Fulfilled {| Submit.uid := "uid-1" |};
     Submit.getIdToken := fun _ => Submit.Fulfilled "id-token";
     Submit.signUp :=
       fun _ => Submit.Fulfilled {| Submit.success := true; Submit.message := "" |};
     Submit.signIn := fun _ => Submit.Fulfilled tt |}.

(** A backend on which the email is already registered. *)
Definition demo_taken_backend : Submit.Backend :=
  {| Submit.firebase :=
       fun _ => Submit.Rejected
                  (Submit.thrown {| Submit.code := Some "auth/email-already-in-use" |});
     Submit.getIdToken := Submit.getIdToken demo_backend;
     Submit.signUp := Submit.signUp demo_backend;
     Submit.signIn := Submit.signIn demo_backend |}.

(** A backend whose sign-in is rejected with [null]. *)
Definition demo_null_backend : Submit.Backend :=
  {| Submit.firebase := fun _ => Submit.Rejected Submit.nullish;
     Submit.getIdToken := Submit.getIdToken demo_backend;
     Submit.signUp := Submit.signUp demo_backend;
     Submit.signIn := Submit.signIn demo_backend |}.

Definition demo_values : Submit.FormValues :=
  {| Submit.name := Some "Ada"; Submit.email := "ada@example.com";
     Submit.password := "correct horse" |}.

Definition demo_sign_up_ok : AuthData :=
  {| name := Zod.str "Ada"; email := Zod.str "ada@example.com";
     password := Zod.str "correct horse" |}.

Definition demo_user : HomePage.User := {| HomePage.id := "user-1" |}.

Definition demo_past_interview : HomePage.Interview :=
  {| HomePage.interview_id := "interview-1"; HomePage.role := "Frontend";
     HomePage.type := "Technical"; HomePage.techstack := ["React"];
     HomePage.createdAt := "2025-01-01" |}.

(** One past interview of the user, nothing available. *)
Definition demo_home_backend (q : HomePage.Query) : HomePage.Answer :=
  match q with
  | HomePage.getInterviewsByUserId _ => HomePage.Resolved (Some [demo_past_interview])
  | HomePage.getLatestInterviews _ => HomePage.Resolved None
  end.

(** A call that is connecting: the microphone granted, the start
    pending, the timer armed. *)
Definition demo_connecting : Machine :=
  after demo_interview demo_env demo_interviewer
        [Click_call; Settled 0 (media_settled MediaGranted)].

(** A component whose call button was clicked. *)
Definition demo_clicked : Machine :=
  after demo_interview demo_env demo_interviewer [Click_call].

(** An active call of an agent of type 'generate'. *)
Definition demo_generate_active : Machine :=
  after demo_generate demo_env demo_interviewer
        [Click_call; Settled 0 (media_settled MediaGranted); Emitted CallStart].

(** * Properties *)

(** ** Reading the calls a procedure made *)

Lemma ui_perform (a : Action) (m : Machine) : ui (perform a m) = update a (ui m).
Proof. destruct a; reflexivity. Qed.

Lemma exec_replay (p : Proc) :
  forall m, ui (fst (exec p m)) = replay (snd (exec p m)) (ui m).
Proof.
  induction p as [ | a k IH | call frame | cb ms k IH ]; intros m; simpl.
  - reflexivity.
  - specialize (IH (perform a m)).
    destruct (exec k (perform a m)) as [m' out]; simpl in *.
    now rewrite IH, ui_perform.
  - now rewrite ui_perform.
  - specialize (IH (next_id m)
                  (bump (with_timers (fun l => (l ++ [(next_id m, cb)])%list) m))).
    destruct (exec (k (next_id m)) _) as [m' out]; simpl in *.
    exact IH.
Qed.

Lemma exec_only (P : Action -> Prop) (p : Proc) :
  forall m, only P p -> Forall P (snd (exec p m)).
Proof.
  induction p as [ | a k IH | call frame | cb ms k IH ]; intros m H; simpl in *.
  - constructor.
  - destruct H as [Ha Hk]. specialize (IH (perform a m) Hk).
    destruct (exec k (perform a m)) as [m' out]; simpl in *.
    now constructor.
  - now repeat constructor.
  - destruct (H (next_id m)) as [Ha Hk].
    specialize (IH (next_id m)
                  (bump (with_timers (fun l => (l ++ [(next_id m, cb)])%list) m)) Hk).
    destruct (exec (k (next_id m)) _) as [m' out]; simpl in *.
    now constructor.
Qed.

Lemma only_seq (P : Action -> Prop) (p q : Proc) :
  only P p -> only P q -> only P (p >> q).
Proof.
  induction p as [ | a k IH | call frame | cb ms k IH ]; simpl; intros Hp Hq.
  - exact Hq.
  - split; [apply Hp | apply IH; [apply Hp | exact Hq]].
  - exact Hp.
  - intros t. split; [apply Hp | apply IH; [apply Hp | exact Hq]].
Qed.

Lemma replay_app (out1 out2 : list Action) (s : AgentState) :
  replay (out1 ++ out2) s = replay out2 (replay out1 s).
Proof.
  revert s. induction out1 as [ | a out1 IH]; intros s; simpl; [reflexivity | apply IH].
Qed.

(** ** The subscription effect *)

Lemma emitter_off_last (event : string) (h : Handler) (l : list (string * Handler)) :
  emitter_off event h (l ++ [(event, h)]) = l.
Proof.
  unfold emitter_off. rewrite rev_app_distr. simpl.
  unfold registration_eqb, Handler_eqb. simpl.
  rewrite String.eqb_refl, Nat.eqb_refl.
  destruct (snd h); simpl; apply rev_involutive.
Qed.

Lemma emitter_off_skip (event : string) (h : Handler) (l : list (string * Handler))
    (r : string * Handler) :
  registration_eqb (event, h) r = false ->
  emitter_off event h (l ++ [r]) = (emitter_off event h l ++ [r])%list.
Proof.
  intros H. unfold emitter_off. rewrite rev_app_distr. simpl. now rewrite H.
Qed.


(** ** What a turn of the event loop does to the state cells *)

Lemma ui_consume (ev : Event) (m : Machine) : ui (consume ev m) = ui m.
Proof. destruct ev; reflexivity. Qed.

(** The cells after a turn are the cells before it with the turn's calls
    applied in order. *)
Lemma step_replay (props : AgentProps.t) (env : ProcessEnv)
    (interviewer : option Assistant) (m m' : Machine) (ev : Event)
    (out : list Action) :
  step props env interviewer m ev = Some (m', out) -> ui m' = replay out (ui m).
Proof.
  unfold step, rerender.
  destruct (handler props env interviewer m ev) as [p | ]; [ | discriminate].
  pose proof (exec_replay p (consume ev m)) as H1.
  destruct (exec p (consume ev m)) as [m1 out1]; simpl in H1.
  rewrite ui_consume in H1.
  destruct (deps_changed (ui m) (ui m1)).
  - pose proof (exec_replay
                  (transcript_effect props (messages (ui m1)) (callStatus (ui m1))) m1)
      as H2.
    destruct (exec _ m1) as [m2 out2]; simpl in H2.
    intros E; inversion E; subst.
    now rewrite replay_app, <- H1.
  - intros E; inversion E; subst.
    now rewrite app_nil_r.
Qed.

Lemma replay_messages (out : list Action) :
  forall s, messages (replay out s) = (messages s ++ appended out)%list.
Proof.
  induction out as [ | a out IH]; intros s; simpl.
  - now rewrite app_nil_r.
  - rewrite IH. destruct a; simpl; try reflexivity.
    now rewrite <- app_assoc.
Qed.

Lemma is_final_transcript_iff (message : Message.t) :
  is_final_transcript message = true
  <-> Message.type message = "transcript"
      /\ Message.transcriptType message = Some "final".
Proof.
  unfold is_final_transcript.
  destruct (Message.transcriptType message) as [t | ].
  - rewrite andb_true_iff, !String.eqb_eq. split.
    + intros [H1 H2]. now subst.
    + intros [H1 H2]. now inversion H2.
  - rewrite andb_false_r. split; [discriminate | intros [_ H]; discriminate].
Qed.

(** ** What the handlers call *)

Lemma only_weaken (P Q : Action -> Prop) (p : Proc) :
  (forall a, P a -> Q a) -> only P p -> only Q p.
Proof.
  intros HPQ.
  induction p as [ | a k IH | call frame | cb ms k IH ]; simpl; intros H.
  - exact I.
  - split; [apply HPQ, H | apply IH, H].
  - apply HPQ, H.
  - intros t. split; [apply HPQ, H | apply IH, H].
Qed.

Lemma only_seq_all (P : Action -> Prop) (ps : list Proc) :
  Forall (only P) ps -> only P (seq_all ps).
Proof.
  induction 1 as [ | p ps Hp _ IH]; simpl; [exact I | now apply only_seq].
Qed.

Ltac split_cases :=
  repeat (simpl;
          match goal with
          | |- context [match ?x with _ => _ end] => destruct x
          | |- context [if ?x then _ else _] => destruct x
          | |- forall _, _ => intro
          | |- _ /\ _ => split
          | |- True => exact I
          end).

Lemma call_handler_action (l : Listener) (e : VapiEvent) :
  only handler_action (call l e).
Proof. unfold call, onMessage. split_cases. Qed.

Lemma handler_makes_handler_actions (props : AgentProps.t) (env : ProcessEnv)
    (interviewer : option Assistant) (m : Machine) (ev : Event) (p : Proc) :
  handler props env interviewer m ev = Some p -> only handler_action p.
Proof.
  destruct ev as [ | stop_error | task o | t | e]; simpl.
  - destruct (CallStatus_eqb _ _); [discriminate | ].
    intros E; inversion E; subst. simpl. tauto.
  - destruct (CallStatus_eqb _ _); [ | discriminate].
    intros E; inversion E; subst. destruct stop_error; simpl; tauto.
  - destruct (assoc task (awaiting m)) as [frame | ]; [ | discriminate].
    destruct frame, o; simpl; try discriminate;
      intros E; inversion E; subst; clear E.
    + destruct r; simpl; [ | tauto].
      repeat split.
      unfold handleCall_try, handleCall_catch, new_Error. split_cases.
    + unfold resume_start, handleCall_catch. split_cases.
    + unfold resume_createFeedback. split_cases.
  - destruct (assoc t (timers m)) as [cb | ]; [ | discriminate].
    intros E; inversion E; subst. unfold run_callback. split_cases.
  - intros E; inversion E; subst. unfold emit.
    apply only_seq_all. apply Forall_map, Forall_forall.
    intros h _. apply call_handler_action.
Qed.

Lemma transcript_effect_actions (props : AgentProps.t)
    (msgs : list SavedMessage.t) (c : CallStatus) :
  only effect_action (transcript_effect props msgs c).
Proof.
  unfold transcript_effect, handleGenerateFeedback.
  apply only_seq; split_cases.
Qed.

(** A turn of the event loop, taken apart: the handler's calls, then the
    calls of the transcript effect if the render runs it. *)
Lemma step_inv (props : AgentProps.t) (env : ProcessEnv)
    (interviewer : option Assistant) (m m' : Machine) (ev : Event)
    (out : list Action) :
  step props env interviewer m ev = Some (m', out) ->
  exists p m1 out1 out2,
    handler props env interviewer m ev = Some p
    /\ exec p (consume ev m) = (m1, out1)
    /\ rerender props (ui m) m1 = (m', out2)
    /\ out = (out1 ++ out2)%list
    /\ Forall handler_action out1
    /\ ui m1 = replay out1 (ui m).
Proof.
  unfold step.
  destruct (handler props env interviewer m ev) as [p | ] eqn:Hp; [ | discriminate].
  pose proof (exec_only handler_action p (consume ev m)
                (handler_makes_handler_actions _ _ _ _ _ _ Hp)) as Hall.
  pose proof (exec_replay p (consume ev m)) as Hui.
  destruct (exec p (consume ev m)) as [m1 out1] eqn:E1.
  destruct (rerender props (ui m) m1) as [m2 out2] eqn:E2.
  intros E; inversion E; subst.
  exists p, m1, out1, out2. simpl in *.
  rewrite ui_consume in Hui. now repeat split.
Qed.

Lemma rerender_cases (props : AgentProps.t) (before : AgentState)
    (m1 m2 : Machine) (out2 : list Action) :
  rerender props before m1 = (m2, out2) ->
  (deps_changed before (ui m1) = false /\ m2 = m1 /\ out2 = [])
  \/ (deps_changed before (ui m1) = true
      /\ exec (transcript_effect props (messages (ui m1)) (callStatus (ui m1))) m1
         = (m2, out2)).
Proof.
  unfold rerender. destruct (deps_changed before (ui m1)).
  - intros E. right. now split.
  - intros E; inversion E; subst. left. now repeat split.
Qed.

(** Frame properties of [replay]. *)
Lemma replay_handler_actions (out : list Action) :
  Forall handler_action out ->
  forall s, lastMessage (replay out s) = lastMessage s.
Proof.
  induction 1 as [ | a out Ha _ IH]; intros s; simpl; [reflexivity | ].
  rewrite IH. destruct a; simpl in *; tauto.
Qed.

Lemma replay_effect_actions (out : list Action) :
  Forall effect_action out ->
  forall s, callStatus (replay out s) = callStatus s
            /\ messages (replay out s) = messages s
            /\ isSpeaking (replay out s) = isSpeaking s.
Proof.
  induction 1 as [ | a out Ha _ IH]; intros s; simpl; [now repeat split | ].
  destruct (IH (update a s)) as (H1 & H2 & H3). rewrite H1, H2, H3.
  destruct a; simpl in *; tauto.
Qed.

Lemma last_cons {A : Type} (l : list A) :
  forall x d, last (x :: l) d = last l x.
Proof.
  induction l as [ | y l IH]; intros x d; [reflexivity | ].
  change (last (x :: y :: l) d) with (last (y :: l) d).
  now rewrite !IH.
Qed.

(** The status after a sequence of calls is the last one written. *)
Lemma replay_status (out : list Action) :
  forall s, callStatus (replay out s) = last (status_writes out) (callStatus s).
Proof.
  induction out as [ | a out IH]; intros s; [reflexivity | ].
  simpl replay. rewrite IH.
  destruct a; try reflexivity.
  simpl status_writes. simpl app. now rewrite last_cons.
Qed.

Lemma status_writes_app (out1 out2 : list Action) :
  status_writes (out1 ++ out2) = (status_writes out1 ++ status_writes out2)%list.
Proof. apply flat_map_app. Qed.

Lemma effect_no_status_writes (out : list Action) :
  Forall effect_action out -> status_writes out = [].
Proof.
  induction 1 as [ | a out Ha _ IH]; simpl; [reflexivity | ].
  rewrite IH. destruct a; simpl in *; tauto.
Qed.

(** The transcript effect writes neither [callStatus] nor [messages]. *)
Lemma rerender_cells (props : AgentProps.t) (before : AgentState)
    (m1 m2 : Machine) (out2 : list Action) :
  rerender props before m1 = (m2, out2) ->
  Forall effect_action out2
  /\ callStatus (ui m2) = callStatus (ui m1)
  /\ messages (ui m2) = messages (ui m1)
  /\ isSpeaking (ui m2) = isSpeaking (ui m1).
Proof.
  intros H. apply rerender_cases in H.
  destruct H as [(_ & -> & ->) | (_ & H)]; [now repeat split | ].
  pose proof (exec_only effect_action _ m1
                (transcript_effect_actions props (messages (ui m1))
                   (callStatus (ui m1)))) as Hall.
  pose proof (exec_replay
                (transcript_effect props (messages (ui m1)) (callStatus (ui m1))) m1)
    as Hui.
  rewrite H in Hall, Hui. simpl in *.
  split; [exact Hall | ].
  rewrite Hui. now apply replay_effect_actions.
Qed.

(** ** The listener table of a mounted component *)

Lemma exec_listeners (p : Proc) :
  forall m, only keeps_listeners p -> listeners (fst (exec p m)) = listeners m.
Proof.
  induction p as [ | a k IH | call frame | cb ms k IH ]; intros m H; simpl in *.
  - reflexivity.
  - destruct H as [Ha Hk]. specialize (IH (perform a m) Hk).
    destruct (exec k (perform a m)) as [m' out]; simpl in *.
    rewrite IH. destruct a; simpl in *; tauto.
  - destruct call; simpl in *; tauto.
  - destruct (H (next_id m)) as [_ Hk].
    specialize (IH (next_id m)
                  (bump (with_timers (fun l => (l ++ [(next_id m, cb)])%list) m)) Hk).
    destruct (exec (k (next_id m)) _) as [m' out]; simpl in *.
    exact IH.
Qed.

Lemma listeners_consume (ev : Event) (m : Machine) :
  listeners (consume ev m) = listeners m.
Proof. destruct ev; reflexivity. Qed.

Lemma step_listeners (props : AgentProps.t) (env : ProcessEnv)
    (interviewer : option Assistant) (m m' : Machine) (ev : Event)
    (out : list Action) :
  step props env interviewer m ev = Some (m', out) -> listeners m' = listeners m.
Proof.
  intros H. apply step_inv in H.
  destruct H as (p & m1 & out1 & out2 & Hp & E1 & E2 & _).
  assert (H1 : listeners m1 = listeners m).
  { pose proof (exec_listeners p (consume ev m)) as H.
    rewrite E1, listeners_consume in H. apply H.
    apply only_weaken with (P := handler_action).
    - intros a; destruct a; simpl; tauto.
    - eapply handler_makes_handler_actions, Hp. }
  apply rerender_cases in E2.
  destruct E2 as [(_ & -> & _) | (_ & E2)]; [exact H1 | ].
  pose proof (exec_listeners
                (transcript_effect props (messages (ui m1)) (callStatus (ui m1))) m1)
    as H.
  rewrite E2 in H. simpl in H. rewrite H; [exact H1 | ].
  apply only_weaken with (P := effect_action).
  - intros a; destruct a; simpl; tauto.
  - apply transcript_effect_actions.
Qed.

(** While the component stays mounted, the functions registered are the
    six of the first run of the subscription effect. *)
Lemma reachable_listeners (props : AgentProps.t) (env : ProcessEnv)
    (interviewer : option Assistant) (m : Machine) :
  reachable props env interviewer m -> listeners m = subscriptions 0.
Proof.
  induction 1 as [ | m ev m' out _ IH Hstep].
  - reflexivity.
  - apply step_listeners in Hstep. congruence.
Qed.

Lemma appended_app (out1 out2 : list Action) :
  appended (out1 ++ out2) = (appended out1 ++ appended out2)%list.
Proof. apply flat_map_app. Qed.

Lemma effect_no_appended (out : list Action) :
  Forall effect_action out -> appended out = [].
Proof.
  induction 1 as [ | a out Ha _ IH]; simpl; [reflexivity | ].
  rewrite IH. destruct a; simpl in *; tauto.
Qed.

(** A message event delivered to a mounted component runs [onMessage]
    once. *)
Lemma message_event_appends (props : AgentProps.t) (env : ProcessEnv)
    (interviewer : option Assistant) (m m' : Machine) (message : Message.t)
    (out : list Action) :
  reachable props env interviewer m ->
  step props env interviewer m (Emitted (MessageEvent message)) = Some (m', out) ->
  appended out = if is_final_transcript message then [saved message] else [].
Proof.
  intros Hreach Hstep.
  pose proof (reachable_listeners _ _ _ _ Hreach) as Hl.
  apply step_inv in Hstep.
  destruct Hstep as (p & m1 & out1 & out2 & Hp & E1 & E2 & -> & _ & _).
  pose proof (rerender_cells _ _ _ _ _ E2) as (Heff & _).
  rewrite appended_app, (effect_no_appended _ Heff), app_nil_r.
  simpl in Hp. rewrite Hl in Hp. inversion Hp; subst p. clear Hp.
  unfold emit in E1. simpl in E1. unfold onMessage in E1.
  destruct (is_final_transcript message); simpl in E1;
    inversion E1; subst; reflexivity.
Qed.

(** C2. [onMessage] appends exactly one entry, the message's role and
    transcript, at the end of [messages] when the message has type
    "transcript" and transcriptType "final", and leaves [messages]
    unchanged for every other message; so does the turn of the event loop
    that delivers a message event to a mounted component.  Whatever the
    event, a turn leaves the entries already stored in place, in order
    and unmodified: the array after the turn is the array before it
    followed by the entries appended during the turn. *)
Theorem transcript_append_only :
  (forall (message : Message.t) (m : Machine),
      Message.type message = "transcript"
      /\ Message.transcriptType message = Some "final" ->
      messages (ui (fst (exec (onMessage message) m)))
      = (messages (ui m) ++ [saved message])%list)
  /\ (forall (message : Message.t) (m : Machine),
      ~ (Message.type message = "transcript"
         /\ Message.transcriptType message = Some "final") ->
      messages (ui (fst (exec (onMessage message) m))) = messages (ui m))
  /\ (forall props env interviewer (m m' : Machine) (ev : Event) (out : list Action),
      step props env interviewer m ev = Some (m', out) ->
      messages (ui m') = (messages (ui m) ++ appended out)%list
      /\ forall i x, nth_error (messages (ui m)) i = Some x ->
                     nth_error (messages (ui m')) i = Some x)
  /\ (forall props env interviewer (m m' : Machine) (message : Message.t)
             (out : list Action),
      reachable props env interviewer m ->
      step props env interviewer m (Emitted (MessageEvent message)) = Some (m', out) ->
      (Message.type message = "transcript"
       /\ Message.transcriptType message = Some "final" ->
       messages (ui m') = (messages (ui m) ++ [saved message])%list)
      /\ (~ (Message.type message = "transcript"
             /\ Message.transcriptType message = Some "final") ->
          messages (ui m') = messages (ui m))).
Proof.
  split; [ | split; [ | split]].
  - intros message m H. apply is_final_transcript_iff in H.
    unfold onMessage. rewrite H. reflexivity.
  - intros message m H.
    unfold onMessage.
    destruct (is_final_transcript message) eqn:E.
    + now apply is_final_transcript_iff in E.
    + reflexivity.
  - intros props env interviewer m m' ev out H.
    apply step_replay in H. rewrite H, replay_messages.
    split; [reflexivity | ].
    intros i x Hi. rewrite nth_error_app1; [exact Hi | ].
    apply nth_error_Some. congruence.
  - intros props env interviewer m m' message out Hreach Hstep.
    pose proof (message_event_appends _ _ _ _ _ _ _ Hreach Hstep) as Happ.
    apply step_replay in Hstep. rewrite Hstep, replay_messages, Happ.
    split; intros H.
    + apply is_final_transcript_iff in H. now rewrite H.
    + destruct (is_final_transcript message) eqn:E.
      * now apply is_final_transcript_iff in E.
      * now rewrite app_nil_r.
Qed.

(** ** The displayed last message *)

Lemma final_entry (l : list SavedMessage.t) (x : SavedMessage.t) :
  (0 <? length (l ++ [x]))%nat = true
  /\ nth_error (l ++ [x]) (length (l ++ [x]) - 1) = Some x.
Proof.
  rewrite length_app. simpl. split.
  - apply Nat.ltb_lt. lia.
  - replace (length l + 1 - 1) with (length l) by lia.
    rewrite nth_error_app2 by lia. now rewrite Nat.sub_diag.
Qed.

(** The transcript effect, run on a non-empty array, stores the content
    of the final element. *)
Lemma transcript_effect_lastMessage (props : AgentProps.t)
    (l : list SavedMessage.t) (x : SavedMessage.t) (c : CallStatus) (m : Machine) :
  lastMessage (ui (fst (exec (transcript_effect props (l ++ [x]) c) m)))
  = SavedMessage.content x.
Proof.
  unfold transcript_effect.
  destruct (final_entry l x) as [-> ->].
  destruct c, (AgentProps.type props); reflexivity.
Qed.

(** C9. In every state a mounted component reaches, if [messages] is
    non-empty then [lastMessage] is the content of its final element. *)
Theorem lastMessage_shows_final_entry (props : AgentProps.t) (env : ProcessEnv)
    (interviewer : option Assistant) (m : Machine) :
  reachable props env interviewer m ->
  forall (l : list SavedMessage.t) (x : SavedMessage.t),
    messages (ui m) = (l ++ [x])%list ->
    lastMessage (ui m) = SavedMessage.content x.
Proof.
  induction 1 as [ | m ev m' out _ IH Hstep]; intros l x Hm.
  - destruct l; discriminate.
  - apply step_inv in Hstep.
    destruct Hstep as (p & m1 & out1 & out2 & _ & _ & E2 & _ & Hall & Hui).
    pose proof (rerender_cells _ _ _ _ _ E2) as (_ & _ & Hmsgs & _).
    apply rerender_cases in E2.
    destruct E2 as [(Hdeps & -> & _) | (_ & E2)].
    + (* the effect does not run: neither cell changed *)
      unfold deps_changed in Hdeps. apply orb_false_elim in Hdeps.
      destruct Hdeps as [Hlen _].
      apply negb_false_iff, Nat.eqb_eq in Hlen.
      rewrite Hui in Hlen, Hm |- *.
      rewrite replay_messages in Hlen, Hm. rewrite length_app in Hlen.
      assert (appended out1 = []) as Hnil
          by (destruct (appended out1); [reflexivity | simpl in Hlen; lia]).
      rewrite Hnil, app_nil_r in Hm.
      rewrite replay_handler_actions by exact Hall.
      now apply IH with (l := l).
    + (* the effect runs on the new array *)
      rewrite Hmsgs in Hm.
      pose proof (transcript_effect_lastMessage props l x (callStatus (ui m1)) m1) as H.
      rewrite <- Hm, E2 in H. exact H.
Qed.

(** ** Feedback generation when the call finishes *)

Lemma CallStatus_eqb_eq (a b : CallStatus) : CallStatus_eqb a b = true <-> a = b.
Proof. destruct a, b; simpl; split; congruence. Qed.

Lemma CallStatus_eqb_refl (a : CallStatus) : CallStatus_eqb a a = true.
Proof. now apply CallStatus_eqb_eq. Qed.

Lemma handler_no_feedback_calls (out : list Action) :
  Forall handler_action out -> feedback_calls out = [].
Proof.
  induction 1 as [ | a out Ha _ IH]; simpl; [reflexivity | ].
  rewrite IH. destruct a; simpl in *; tauto.
Qed.

Lemma feedback_calls_app (out1 out2 : list Action) :
  feedback_calls (out1 ++ out2) = (feedback_calls out1 ++ feedback_calls out2)%list.
Proof. apply flat_map_app. Qed.

Lemma pushes_app (out1 out2 : list Action) :
  pushes (out1 ++ out2) = (pushes out1 ++ pushes out2)%list.
Proof. apply flat_map_app. Qed.

(** The transcript effect of an interview agent, run with the status
    [FINISHED]: one [createFeedback] call, suspended in its frame. *)
Lemma transcript_effect_finished (props : AgentProps.t)
    (msgs : list SavedMessage.t) (m : Machine) :
  AgentProps.type props = interview ->
  let r := exec (transcript_effect props msgs FINISHED) m in
  feedback_calls (snd r) = [feedback_params props msgs]
  /\ pushes (snd r) = []
  /\ awaiting (fst r)
     = (awaiting m ++ [(next_id m, handleGenerateFeedback_createFeedback)])%list.
Proof.
  intros Htype. unfold transcript_effect. rewrite Htype.
  destruct (0 <? length msgs)%nat;
    [destruct (nth_error msgs (length msgs - 1)) | ]; simpl.
  all: split; [reflexivity | split; reflexivity].
Qed.

Lemma resume_createFeedback_pushes (props : AgentProps.t) (r : FeedbackResult)
    (m : Machine) :
  let res := exec (resume_createFeedback props r) m in
  (saved_feedback r ->
   pushes (snd res) = ["/interview/" ++ AgentProps.interviewId props ++ "/feedback"])
  /\ (~ saved_feedback r -> pushes (snd res) = ["/"])
  /\ feedback_calls (snd res) = []
  /\ status_writes (snd res) = []
  /\ appended (snd res) = [].
Proof.
  unfold saved_feedback, resume_createFeedback.
  destruct r as [[ | ] [id | ] | err]; simpl;
    [destruct (String.eqb_spec id "") as [-> | Hne]; simpl | .. ];
    repeat match goal with |- _ /\ _ => split end;
    try reflexivity;
    try (intros _; reflexivity);
    try (intros (id' & E & Hne'); inversion E; subst; congruence);
    try (intros H; exfalso; apply H; eexists; split; [reflexivity | assumption]).
Qed.

Lemma deps_unchanged (before : AgentState) (out : list Action) :
  status_writes out = [] -> appended out = [] ->
  deps_changed before (replay out before) = false.
Proof.
  intros Hs Ha. unfold deps_changed.
  rewrite replay_messages, replay_status, Hs, Ha, app_nil_r. simpl.
  now rewrite Nat.eqb_refl, CallStatus_eqb_refl.
Qed.

(** Frames are suspended under new identifiers. *)
Lemma assoc_fresh {A : Type} (k : nat) (l : list (nat * A)) :
  Forall (fun kv => fst kv < k) l -> assoc k l = None.
Proof.
  induction 1 as [ | [k' v] l Hk _ IH]; simpl; [reflexivity | ].
  simpl in Hk. destruct (Nat.eqb_spec k k'); [lia | exact IH].
Qed.

Lemma assoc_snoc {A : Type} (k : nat) (v : A) (l : list (nat * A)) :
  Forall (fun kv => fst kv < k) l -> assoc k (l ++ [(k, v)]) = Some v.
Proof.
  induction 1 as [ | [k' v'] l Hk _ IH]; simpl.
  - now rewrite Nat.eqb_refl.
  - simpl in Hk. destruct (Nat.eqb_spec k k'); [lia | exact IH].
Qed.

Lemma perform_ids (a : Action) (m : Machine) :
  awaiting (perform a m) = awaiting m /\ next_id (perform a m) = next_id m.
Proof. destruct a; split; reflexivity. Qed.

Lemma exec_ids_fresh (p : Proc) :
  forall m, ids_fresh m ->
            ids_fresh (fst (exec p m)) /\ next_id m <= next_id (fst (exec p m)).
Proof.
  unfold ids_fresh.
  induction p as [ | a k IH | call frame | cb ms k IH ]; intros m H; simpl.
  - split; [exact H | lia].
  - destruct (perform_ids a m) as [Ha Hn].
    specialize (IH (perform a m)). rewrite Ha, Hn in IH. specialize (IH H).
    destruct (exec k (perform a m)) as [m' out]; simpl in *. exact IH.
  - destruct (perform_ids call m) as [Ha Hn]. rewrite Ha.
    split; [ | lia].
    apply Forall_app. split.
    + eapply Forall_impl; [ | exact H]. simpl. intros kv Hkv. lia.
    + constructor; [simpl; lia | constructor].
  - specialize (IH (next_id m)
                  (bump (with_timers (fun l => (l ++ [(next_id m, cb)])%list) m))).
    simpl in IH.
    assert (Forall (fun kv : nat * Frame => fst kv < S (next_id m)) (awaiting m)) as H'
        by (eapply Forall_impl; [ | exact H]; simpl; intros kv Hkv; lia).
    specialize (IH H').
    destruct (exec (k (next_id m)) _) as [m' out]; simpl in *.
    split; [apply IH | lia].
Qed.

Lemma consume_ids_fresh (ev : Event) (m : Machine) :
  ids_fresh m -> ids_fresh (consume ev m) /\ next_id (consume ev m) = next_id m.
Proof.
  unfold ids_fresh. intros H. destruct ev; simpl; split; try exact H; try reflexivity.
  unfold drop. apply Forall_forall. intros kv Hin.
  apply filter_In in Hin. destruct Hin as [Hin _].
  rewrite Forall_forall in H. now apply H.
Qed.

Lemma step_ids_fresh (props : AgentProps.t) (env : ProcessEnv)
    (interviewer : option Assistant) (m m' : Machine) (ev : Event)
    (out : list Action) :
  ids_fresh m -> step props env interviewer m ev = Some (m', out) -> ids_fresh m'.
Proof.
  intros H Hstep. apply step_inv in Hstep.
  destruct Hstep as (p & m1 & out1 & out2 & _ & E1 & E2 & _).
  destruct (consume_ids_fresh ev m H) as [Hc _].
  pose proof (exec_ids_fresh p _ Hc) as [H1 _]. rewrite E1 in H1. simpl in H1.
  apply rerender_cases in E2.
  destruct E2 as [(_ & -> & _) | (_ & E2)]; [exact H1 | ].
  pose proof (exec_ids_fresh
                (transcript_effect props (messages (ui m1)) (callStatus (ui m1)))
                _ H1) as [H2 _].
  rewrite E2 in H2. exact H2.
Qed.

Lemma mount_ids_fresh (props : AgentProps.t) (run : nat) (m : Machine) :
  ids_fresh m -> ids_fresh (fst (mount props run m)).
Proof.
  intros H. unfold mount.
  pose proof (exec_ids_fresh (subscribe props run) m H) as [H1 _].
  destruct (exec (subscribe props run) m) as [m1 out1]. simpl in H1.
  pose proof (exec_ids_fresh
                (transcript_effect props (messages (ui m1)) (callStatus (ui m1)))
                m1 H1) as [H2 _].
  destruct (exec _ m1) as [m2 out2]. exact H2.
Qed.

Lemma reachable_ids_fresh (props : AgentProps.t) (env : ProcessEnv)
    (interviewer : option Assistant) (m : Machine) :
  reachable props env interviewer m -> ids_fresh m.
Proof.
  induction 1 as [ | m ev m' out _ IH Hstep].
  - apply mount_ids_fresh. unfold ids_fresh, initial. simpl. constructor.
  - eapply step_ids_fresh; [exact IH | exact Hstep].
Qed.

(** The turn in which the call finishes.  For an agent of type
    'interview': in the turn of the event loop
    in which the call status becomes [FINISHED], [createFeedback] is
    called exactly once, with the transcript accumulated so far, the
    interviewId and the userId (and the feedbackId prop), and the call is
    left suspended, in a mounted component under an identifier not in use
    before; when a [createFeedback] call settles, the router is pushed
    exactly once: to /interview/{interviewId}/feedback if the result has
    success true and a (non-empty) feedback id, and to "/" in every other
    case (success false, no id, or a rejection). *)
Theorem feedback_on_finish (props : AgentProps.t) (env : ProcessEnv)
    (interviewer : option Assistant) :
  AgentProps.type props = interview ->
  (forall (m m' : Machine) (ev : Event) (out : list Action),
      step props env interviewer m ev = Some (m', out) ->
      callStatus (ui m) <> FINISHED ->
      callStatus (ui m') = FINISHED ->
      feedback_calls out = [feedback_params props (messages (ui m'))]
      /\ (exists task, In (task, handleGenerateFeedback_createFeedback) (awaiting m'))
      /\ (reachable props env interviewer m ->
          exists task,
            assoc task (awaiting m) = None
            /\ assoc task (awaiting m') = Some handleGenerateFeedback_createFeedback))
  /\ (forall (m : Machine) (task : TaskId) (r : FeedbackResult),
      assoc task (awaiting m) = Some handleGenerateFeedback_createFeedback ->
      exists m' out,
        step props env interviewer m (Settled task (feedback_settled r)) = Some (m', out)
        /\ (saved_feedback r ->
            pushes out = ["/interview/" ++ AgentProps.interviewId props ++ "/feedback"])
        /\ (~ saved_feedback r -> pushes out = ["/"])
        /\ feedback_calls out = []).
Proof.
  intros Htype. split.
  - intros m m' ev out Hstep Hbefore Hafter.
    apply step_inv in Hstep.
    destruct Hstep as (p & m1 & out1 & out2 & _ & E1 & E2 & -> & Hall & _).
    pose proof (rerender_cells _ _ _ _ _ E2) as (_ & Hstatus & Hmsgs & _).
    apply rerender_cases in E2.
    destruct E2 as [(Hdeps & _ & _) | (_ & E2)].
    + exfalso. unfold deps_changed in Hdeps. apply orb_false_elim in Hdeps.
      destruct Hdeps as [_ Hsame].
      apply negb_false_iff, CallStatus_eqb_eq in Hsame. congruence.
    + rewrite <- Hstatus, Hafter in E2.
      pose proof (transcript_effect_finished props (messages (ui m1)) m1 Htype)
        as (Hcalls & _ & Hawait).
      rewrite E2 in Hcalls, Hawait. simpl in Hcalls, Hawait.
      rewrite feedback_calls_app, (handler_no_feedback_calls _ Hall), Hcalls, Hmsgs.
      split; [reflexivity | split].
      * exists (next_id m1). rewrite Hawait. apply in_or_app. right. now left.
      * intros Hreach. apply reachable_ids_fresh in Hreach.
        destruct (consume_ids_fresh ev m Hreach) as [Hc Hn].
        pose proof (exec_ids_fresh p _ Hc) as [H1 Hle].
        rewrite E1 in H1, Hle. simpl in H1, Hle. rewrite Hn in Hle.
        exists (next_id m1). split.
        -- apply assoc_fresh. eapply Forall_impl; [ | exact Hreach].
           simpl. intros kv Hkv. lia.
        -- rewrite Hawait. now apply assoc_snoc.
  - intros m task r Hassoc.
    unfold step. simpl. rewrite Hassoc. simpl.
    pose proof (resume_createFeedback_pushes props r
                  (with_awaiting (drop task) m)) as (Hyes & Hno & Hcalls & Hs & Ha).
    pose proof (exec_replay (resume_createFeedback props r)
                  (with_awaiting (drop task) m)) as Hui.
    destruct (exec (resume_createFeedback props r) (with_awaiting (drop task) m))
      as [m1 out1].
    simpl in *.
    unfold rerender. rewrite Hui, (deps_unchanged _ _ Hs Ha).
    exists m1, (out1 ++ [])%list. rewrite app_nil_r. now repeat split.
Qed.

(** ** Starting a call *)

(** C7. The first call [handleCall] makes, apart from debug logging, is
    the microphone request, on which it is suspended with the call status
    untouched; and whenever that request is rejected, the rest of
    [handleCall] shows the alert and returns: [vapi.start] is not called,
    the status is not written (so it does not become CONNECTING through
    this call), no timer is armed and nothing is left suspended. *)
Theorem handleCall_microphone_rejected (props : AgentProps.t) (env : ProcessEnv)
    (interviewer : option Assistant) :
  (forall (m : Machine) (c : CallStatus),
      let r := exec (handleCall props env c) m in
      besides_logs (snd r) = [getUserMedia]
      /\ callStatus (ui (fst r)) = callStatus (ui m)
      /\ awaiting (fst r) = (awaiting m ++ [(next_id m, handleCall_getUserMedia c)])%list)
  /\ (forall (m : Machine) (task : TaskId) (c : CallStatus) (micError : Thrown),
      assoc task (awaiting m) = Some (handleCall_getUserMedia c) ->
      exists m' out,
        step props env interviewer m
             (Settled task (media_settled (MediaRejected micError))) = Some (m', out)
        /\ besides_logs out
           = [alert "Microphone access is required for the interview. Please grant permission and try again."]
        /\ start_calls out = []
        /\ status_writes out = []
        /\ callStatus (ui m') = callStatus (ui m)
        /\ awaiting m' = drop task (awaiting m)
        /\ timers m' = timers m).
Proof.
  split.
  - intros m c. simpl. now repeat split.
  - intros m task c micError Hassoc.
    unfold step. simpl. rewrite Hassoc. simpl.
    unfold rerender, deps_changed. simpl.
    rewrite Nat.eqb_refl, CallStatus_eqb_refl. simpl.
    eexists. eexists. split; [reflexivity | ]. simpl. now repeat split.
Qed.

(** ** Sample runs *)

Lemma steps_reachable (props : AgentProps.t) (env : ProcessEnv)
    (interviewer : option Assistant) (evs : list Event) :
  forall m m' out,
    reachable props env interviewer m ->
    steps props env interviewer m evs = Some (m', out) ->
    reachable props env interviewer m'.
Proof.
  induction evs as [ | ev evs IH]; intros m m' out Hm; simpl.
  - intros E; inversion E; subst. exact Hm.
  - destruct (step props env interviewer m ev) as [[m1 out1] | ] eqn:E1; [ | discriminate].
    destruct (steps props env interviewer m1 evs) as [[m2 out2] | ] eqn:E2; [ | discriminate].
    intros E; inversion E; subst.
    eapply IH; [ | exact E2].
    eapply reachable_step; [exact Hm | exact E1].
Qed.

Lemma after_reachable (props : AgentProps.t) (env : ProcessEnv)
    (interviewer : option Assistant) (evs : list Event) :
  steps props env interviewer (fst (mount props 0 initial)) evs <> None ->
  reachable props env interviewer (after props env interviewer evs).
Proof.
  unfold after.
  destruct (steps props env interviewer (fst (mount props 0 initial)) evs)
    as [[m out] | ] eqn:E; [ | congruence].
  intros _. eapply steps_reachable; [apply reachable_mount | exact E].
Qed.

(** ** Errors *)



(** ** The call status *)

Lemma handler_status_writes (props : AgentProps.t) (env : ProcessEnv)
    (interviewer : option Assistant) (m : Machine) (ev : Event) (p : Proc) :
  listeners m = subscriptions 0 ->
  handler props env interviewer m ev = Some p ->
  forall m0, writes_allowed ev (status_writes (snd (exec p m0))).
Proof.
  intros Hl.
  destruct ev as [ | stop_error | task o | t | e]; simpl.
  - destruct (CallStatus_eqb _ _); [discriminate | ].
    intros E; inversion E; subst. reflexivity.
  - destruct (CallStatus_eqb _ _); [ | discriminate].
    intros E; inversion E; subst. intros m0. now destruct stop_error.
  - destruct (assoc task (awaiting m)) as [frame | ]; [ | discriminate].
    destruct frame, o; simpl; try discriminate;
      intros E; inversion E; subst; clear E; intros m0.
    + destruct r; [ | reflexivity].
      unfold resume_getUserMedia, handleCall_try.
      destruct (AgentProps.type props).
      * destruct (truthy (NEXT_PUBLIC_VAPI_WORKFLOW_ID env)); simpl; auto.
      * destruct interviewer; simpl; auto.
    + destruct r as [ | err]; [reflexivity | ]. now destruct err.
    + destruct r as [[ | ] [id | ] | err]; simpl; try reflexivity.
      now destruct (String.eqb id "").
  - destruct (assoc t (timers m)) as [[c] | ]; [ | discriminate].
    intros E; inversion E; subst. intros m0. destruct c; simpl; auto.
  - intros E; inversion E; subst. intros m0. rewrite Hl.
    destruct e; try reflexivity.
    unfold emit. simpl. unfold onMessage.
    now destruct (is_final_transcript m1).
Qed.

(** A failed start takes the status from [CONNECTING] back to
    [INACTIVE]. *)
Lemma failed_start_leaves_linear_order :
  let m := after demo_interview demo_env demo_interviewer
                 [Click_call; Settled 0 (media_settled MediaGranted)] in
  reachable demo_interview demo_env demo_interviewer m
  /\ callStatus (ui m) = CONNECTING
  /\ match step demo_interview demo_env demo_interviewer m
                (Settled 2 (start_settled (StartRejected (new_Error "no network"))))
     with
     | Some (m', _) =>
         callStatus (ui m') = INACTIVE
         /\ ~ (callStatus (ui m') = callStatus (ui m)
               \/ linear_next (callStatus (ui m)) (callStatus (ui m')))
     | None => False
     end.
Proof.
  cbv zeta. split; [ | split].
  - apply after_reachable. vm_compute. discriminate.
  - reflexivity.
  - vm_compute. split; [reflexivity | ].
    intros [H | [[H _] | [[_ H] | [H _]]]]; discriminate.
Qed.

(** C4, as the code has it.  The status is one of the four values.  In
    a turn of the event loop of a mounted component the status either
    stays as it is or becomes the value the event's handler writes,
    whatever it was before: [CONNECTING] when the microphone is granted
    to [handleCall] ([INACTIVE] if the start then fails at once),
    [ACTIVE] on call-start, [FINISHED] on call-end and on
    [handleDisconnect] (offered while [ACTIVE]), [INACTIVE] when
    [vapi.start] rejects and when the connect timeout's callback
    resets. *)
Theorem callStatus_transitions (props : AgentProps.t) (env : ProcessEnv)
    (interviewer : option Assistant) (m m' : Machine) (ev : Event)
    (out : list Action) :
  reachable props env interviewer m ->
  step props env interviewer m ev = Some (m', out) ->
  (forall c : CallStatus,
      c = INACTIVE \/ c = CONNECTING \/ c = ACTIVE \/ c = FINISHED)
  /\ (callStatus (ui m') = callStatus (ui m)
      \/ match ev with
         | Click_end _ =>
             callStatus (ui m) = ACTIVE /\ callStatus (ui m') = FINISHED
         | Settled _ (media_settled MediaGranted) =>
             callStatus (ui m') = CONNECTING \/ callStatus (ui m') = INACTIVE
         | Settled _ (start_settled (StartRejected _)) =>
             callStatus (ui m') = INACTIVE
         | Timer_fired _ => callStatus (ui m') = INACTIVE
         | Emitted CallStart => callStatus (ui m') = ACTIVE
         | Emitted CallEnd => callStatus (ui m') = FINISHED
         | _ => False
         end).
Proof.
  intros Hreach Hstep.
  split; [intros c; destruct c; tauto | ].
  pose proof (reachable_listeners _ _ _ _ Hreach) as Hl.
  pose proof (step_replay _ _ _ _ _ _ _ Hstep) as Hui.
  apply step_inv in Hstep.
  destruct Hstep as (p & m1 & out1 & out2 & Hp & E1 & E2 & -> & _ & _).
  pose proof (rerender_cells _ _ _ _ _ E2) as (Heff & _).
  pose proof (handler_status_writes _ _ _ _ _ _ Hl Hp (consume ev m)) as Hw.
  rewrite E1 in Hw. simpl in Hw.
  rewrite Hui, replay_status, status_writes_app, (effect_no_status_writes _ Heff),
    app_nil_r.
  destruct ev as [ | stop_error | task o | t | e]; simpl in Hw.
  - rewrite Hw. now left.
  - rewrite Hw. right. split; [ | reflexivity].
    simpl in Hp. destruct (CallStatus_eqb _ _) eqn:E; [ | discriminate].
    now apply CallStatus_eqb_eq in E.
  - destruct o as [[ | micError] | [ | err] | r]; try (rewrite Hw; now left).
    + destruct Hw as [-> | ->]; right; [now left | now right].
    + rewrite Hw. now right.
  - destruct Hw as [-> | ->]; [now left | now right].
  - destruct e; rewrite Hw; try (now left); now right.
Qed.

(** The order of a successful call. *)
Example successful_call_order :
  map (fun evs => callStatus (ui (after demo_interview demo_env demo_interviewer evs)))
      [ [];
        [Click_call; Settled 0 (media_settled MediaGranted)];
        [Click_call; Settled 0 (media_settled MediaGranted); Emitted CallStart];
        [Click_call; Settled 0 (media_settled MediaGranted); Emitted CallStart;
         Settled 2 (start_settled StartFulfilled); Click_end None] ]
  = [INACTIVE; CONNECTING; ACTIVE; FINISHED].
Proof. vm_compute. reflexivity. Qed.

(** ** The identifier handed to [vapi.start] *)

(** With the microphone granted, a 'generate' agent whose environment
    sets the workflow variable starts the SDK with the value of the
    assistant variable. *)
Lemma generate_start_target (props : AgentProps.t) (env : ProcessEnv)
    (c : CallStatus) (m : Machine) :
  AgentProps.type props = generate ->
  truthy (NEXT_PUBLIC_VAPI_WORKFLOW_ID env) = true ->
  start_calls (snd (exec (resume_getUserMedia props env None c MediaGranted) m))
  = [ (TargetId (NEXT_PUBLIC_VAPI_ASSISTANT_ID env),
       {| variableValues := [("userName", AgentProps.userName props);
                             ("userid", AgentProps.userId props)] |}) ].
Proof.
  intros Ht Hw. unfold resume_getUserMedia, handleCall_try. simpl.
  now rewrite Ht, Hw.
Qed.

(** Without the workflow variable the start fails before the SDK is
    called: alert, status back to [INACTIVE]. *)
Lemma generate_start_requires_workflow_id (props : AgentProps.t) (env : ProcessEnv)
    (c : CallStatus) (m : Machine) :
  AgentProps.type props = generate ->
  truthy (NEXT_PUBLIC_VAPI_WORKFLOW_ID env) = false ->
  let r := exec (resume_getUserMedia props env None c MediaGranted) m in
  start_calls (snd r) = []
  /\ alerts (snd r) = ["Failed to start call: NEXT_PUBLIC_VAPI_WORKFLOW_ID is not set"]
  /\ callStatus (ui (fst r)) = INACTIVE.
Proof.
  intros Ht Hw. unfold resume_getUserMedia, handleCall_try. simpl.
  rewrite Ht, Hw. simpl. now repeat split.
Qed.

(** C3 at a concrete environment: the workflow variable is "wf-123", the
    assistant variable "asst-456"; the one [vapi.start] call of a
    'generate' agent receives "asst-456". *)
Theorem generate_start_receives_assistant_id :
  NEXT_PUBLIC_VAPI_WORKFLOW_ID demo_env = Some "wf-123"
  /\ match steps demo_generate demo_env demo_interviewer
                 (fst (mount demo_generate 0 initial))
                 [Click_call; Settled 0 (media_settled MediaGranted)]
     with
     | Some (_, out) =>
         start_calls out
         = [ (TargetId (Some "asst-456"),
              {| variableValues := [("userName", "Ada"); ("userid", "user-1")] |}) ]
     | None => False
     end.
Proof. split; vm_compute; reflexivity. Qed.

(** ** The connect timeout *)

(** The callback tests the status its [handleCall] was created with; it
    does nothing unless that was [CONNECTING]. *)
Lemma connectTimeout_callback_stale (c : CallStatus) :
  c <> CONNECTING -> run_callback (connectTimeout_callback c) = Ret.
Proof. destruct c; simpl; congruence. Qed.

(** C5 at a concrete run: the call button is clicked while the status
    is [INACTIVE], the microphone is granted, [vapi.start] stays pending
    and the timer fires: the status is still [CONNECTING] afterwards. *)
Theorem connect_timeout_leaves_connecting :
  let m := after demo_interview demo_env demo_interviewer
                 [Click_call; Settled 0 (media_settled MediaGranted)] in
  callStatus (ui m) = CONNECTING
  /\ timers m = [(1, connectTimeout_callback INACTIVE)]
  /\ awaiting m = [(2, handleCall_start 1)]
  /\ match step demo_interview demo_env demo_interviewer m (Timer_fired 1) with
     | Some (m', out) =>
         out = [] /\ callStatus (ui m') = CONNECTING /\ timers m' = []
     | None => False
     end.
Proof. vm_compute. repeat split. Qed.

(** ** The form schema *)

Section Validation.

Variable is_email : string -> bool.

Lemma accepts_iff (schema : AuthSchema) (data : AuthData) :
  accepts is_email schema data = true
  <-> Zod.parse is_email (name_schema schema) (name data) = []
      /\ Zod.parse is_email (email_schema schema) (email data) = []
      /\ Zod.parse is_email (password_schema schema) (password data) = [].
Proof.
  unfold accepts, safeParse. split.
  - destruct (_ ++ _)%list eqn:E; [ | discriminate].
    intros _. apply app_eq_nil in E. destruct E as [H1 E].
    apply app_eq_nil in E. tauto.
  - intros (-> & -> & ->). reflexivity.
Qed.

Lemma parse_email (message : string) (v : Zod.Value) :
  Zod.parse is_email (Zod.string_ [Zod.email message]) v = []
  <-> valid_email is_email v.
Proof.
  unfold valid_email. destruct v as [ | s | t]; simpl.
  - split; [discriminate | intros (s & E & _); discriminate].
  - destruct (is_email s) eqn:E; simpl.
    + split; [intros _; now exists s | reflexivity].
    + split; [discriminate | intros (s' & E' & H)]. inversion E'; subst. congruence.
  - split; [discriminate | intros (s & E & _); discriminate].
Qed.

Lemma parse_min (n : nat) (message : string) (v : Zod.Value) :
  Zod.parse is_email (Zod.string_ [Zod.min n message]) v = []
  <-> at_least n v.
Proof.
  unfold at_least. destruct v as [ | s | t]; simpl.
  - split; [discriminate | intros (s & E & _); discriminate].
  - destruct (Nat.ltb_spec (String.length s) n) as [Hlt | Hge]; simpl.
    + split; [discriminate | intros (s' & E' & H)]. inversion E'; subst. lia.
    + split; [intros _; now exists s | reflexivity].
  - split; [discriminate | intros (s & E & _); discriminate].
Qed.

(** C10. For the schema of either [AuthForm]: the sign-up schema
    rejects a submission whose name is a string of fewer than 3
    characters; the sign-in schema accepts a submission without a name
    (given a valid email address and a long enough password); and for
    both form types a submission is rejected when its email field does
    not hold a valid email address. *)
Theorem authFormSchema_validation :
  (forall data s,
      name data = Zod.str s -> String.length s < 3 ->
      accepts is_email (AuthForm.authFormSchema sign_up) data = false
      /\ accepts is_email (FirebaseAuthForm.authFormSchema sign_up) data = false)
  /\ (forall data,
      name data = Zod.undefined ->
      valid_email is_email (email data) ->
      (at_least 8 (password data) ->
       accepts is_email (AuthForm.authFormSchema sign_in) data = true)
      /\ (at_least 6 (password data) ->
          accepts is_email (FirebaseAuthForm.authFormSchema sign_in) data = true))
  /\ (forall type data,
      ~ valid_email is_email (email data) ->
      accepts is_email (AuthForm.authFormSchema type) data = false
      /\ accepts is_email (FirebaseAuthForm.authFormSchema type) data = false).
Proof.
  split; [ | split].
  - intros data s Hname Hlen.
    split; apply not_true_is_false; intros H; apply accepts_iff in H;
      destruct H as (H & _); simpl in H; apply parse_min in H;
      destruct H as (s' & E & Hge); rewrite Hname in E; inversion E; subst; lia.
  - intros data Hname Hemail.
    split; intros Hpw; apply accepts_iff; simpl; rewrite Hname;
      (split; [reflexivity | split; [now apply parse_email | now apply parse_min]]).
  - intros type data Hemail.
    split; apply not_true_is_false; intros H; apply accepts_iff in H;
      destruct H as (_ & H & _); simpl in H; now apply parse_email in H.
Qed.

End Validation.

(** * Instances *)

Lemma demo_active_reachable :
  reachable demo_interview demo_env demo_interviewer demo_active.
Proof. apply after_reachable. vm_compute. discriminate. Qed.

Lemma feedback_on_finish_witness :
  let r := turn demo_interview demo_env demo_interviewer demo_active (Click_end None) in
  AgentProps.type demo_interview = interview
  /\ callStatus (ui demo_active) <> FINISHED
  /\ callStatus (ui (fst r)) = FINISHED
  /\ feedback_calls (snd r) = [feedback_params demo_interview (messages (ui (fst r)))].
Proof.
  cbv zeta.
  split; [reflexivity | ].
  split; [vm_compute; discriminate | ].
  split; [vm_compute; reflexivity | ].
  apply (proj1 (feedback_on_finish demo_interview demo_env demo_interviewer eq_refl)
           demo_active
           (fst (turn demo_interview demo_env demo_interviewer demo_active (Click_end None)))
           (Click_end None)
           (snd (turn demo_interview demo_env demo_interviewer demo_active (Click_end None)))).
  - vm_compute. reflexivity.
  - vm_compute. discriminate.
  - vm_compute. reflexivity.
Defined.

Lemma transcript_append_only_witness :
  let m := fst (mount demo_interview 0 initial) in
  let r := turn demo_interview demo_env demo_interviewer m
                (Emitted (MessageEvent demo_message)) in
  messages (ui (fst (exec (onMessage demo_message) m))) = [saved demo_message]
  /\ messages (ui (fst r)) = (messages (ui m) ++ appended (snd r))%list.
Proof.
  cbv zeta. split.
  - apply (proj1 transcript_append_only demo_message
             (fst (mount demo_interview 0 initial))).
    split; reflexivity.
  - refine (proj1 (proj1 (proj2 (proj2 transcript_append_only))
                     demo_interview demo_env demo_interviewer
                     (fst (mount demo_interview 0 initial))
                     (fst (turn demo_interview demo_env demo_interviewer
                                (fst (mount demo_interview 0 initial))
                                (Emitted (MessageEvent demo_message))))
                     (Emitted (MessageEvent demo_message))
                     (snd (turn demo_interview demo_env demo_interviewer
                                (fst (mount demo_interview 0 initial))
                                (Emitted (MessageEvent demo_message))))
                     _)).
    vm_compute. reflexivity.
Defined.

Lemma callStatus_transitions_witness :
  let m := after demo_interview demo_env demo_interviewer
                 [Click_call; Settled 0 (media_settled MediaGranted)] in
  let r := turn demo_interview demo_env demo_interviewer m (Emitted CallStart) in
  callStatus (ui (fst r)) = callStatus (ui m) \/ callStatus (ui (fst r)) = ACTIVE.
Proof.
  cbv zeta.
  apply (proj2 (callStatus_transitions demo_interview demo_env demo_interviewer
                  (after demo_interview demo_env demo_interviewer
                         [Click_call; Settled 0 (media_settled MediaGranted)])
                  (fst (turn demo_interview demo_env demo_interviewer
                          (after demo_interview demo_env demo_interviewer
                                 [Click_call; Settled 0 (media_settled MediaGranted)])
                          (Emitted CallStart)))
                  (Emitted CallStart)
                  (snd (turn demo_interview demo_env demo_interviewer
                          (after demo_interview demo_env demo_interviewer
                                 [Click_call; Settled 0 (media_settled MediaGranted)])
                          (Emitted CallStart)))
                  (after_reachable demo_interview demo_env demo_interviewer
                     [Click_call; Settled 0 (media_settled MediaGranted)]
                     ltac:(vm_compute; discriminate))
                  ltac:(vm_compute; reflexivity))).
Defined.

Lemma handleCall_microphone_rejected_witness :
  let m := after demo_interview demo_env demo_interviewer [Click_call] in
  assoc 0 (awaiting m) = Some (handleCall_getUserMedia INACTIVE)
  /\ exists m' out,
      step demo_interview demo_env demo_interviewer m
           (Settled 0 (media_settled (MediaRejected (new_Error "Permission denied"))))
      = Some (m', out)
      /\ start_calls out = []
      /\ callStatus (ui m') = callStatus (ui m).
Proof.
  cbv zeta. split; [vm_compute; reflexivity | ].
  destruct (proj2 (handleCall_microphone_rejected demo_interview demo_env demo_interviewer)
              (after demo_interview demo_env demo_interviewer [Click_call])
              0 INACTIVE (new_Error "Permission denied")
              ltac:(vm_compute; reflexivity))
    as (m' & out & Hstep & _ & Hstart & _ & Hstatus & _).
  exists m', out. now repeat split.
Defined.

Lemma lastMessage_shows_final_entry_witness :
  messages (ui demo_active) = [saved demo_message]
  /\ lastMessage (ui demo_active) = "I led the migration.".
Proof.
  split; [vm_compute; reflexivity | ].
  apply (lastMessage_shows_final_entry demo_interview demo_env demo_interviewer
           demo_active demo_active_reachable [] (saved demo_message)).
  vm_compute. reflexivity.
Defined.

Lemma authFormSchema_validation_witness :
  accepts demo_is_email (AuthForm.authFormSchema sign_up) demo_sign_up = false
  /\ accepts demo_is_email (FirebaseAuthForm.authFormSchema sign_in) demo_sign_in = true
  /\ accepts demo_is_email (AuthForm.authFormSchema sign_in) demo_bad_email = false.
Proof.
  split; [ | split].
  - apply (proj1 (authFormSchema_validation demo_is_email) demo_sign_up "Al").
    + reflexivity.
    + simpl. lia.
  - apply (proj1 (proj2 (authFormSchema_validation demo_is_email)) demo_sign_in).
    + reflexivity.
    + exists "ada@example.com". split; reflexivity.
    + exists "correct horse". split; [reflexivity | simpl; lia].
  - apply (proj2 (proj2 (authFormSchema_validation demo_is_email)) sign_in demo_bad_email).
    intros (s & E & H). inversion E; subst. discriminate.
Defined.

(** A final transcript that arrives after the call has finished changes
    [messages], so the transcript effect runs again and submits the
    longer transcript. *)
Example late_transcript_submits_again :
  let finished :=
    fst (turn demo_interview demo_env demo_interviewer demo_active (Click_end None)) in
  let r := turn demo_interview demo_env demo_interviewer finished
                (Emitted (MessageEvent demo_message)) in
  callStatus (ui finished) = FINISHED
  /\ feedback_calls (snd r)
     = [feedback_params demo_interview [saved demo_message; saved demo_message]].
Proof. vm_compute. split; reflexivity. Qed.

(** The transcript effect has [messages] among its dependencies and
    tests only the status: while the status is [FINISHED], every final
    transcript delivered to a mounted interview agent makes the effect
    call [createFeedback] once more, with the transcript so extended. *)
Lemma finished_transcript_submits_again (props : AgentProps.t) (env : ProcessEnv)
    (interviewer : option Assistant) (m m' : Machine) (message : Message.t)
    (out : list Action) :
  AgentProps.type props = interview ->
  reachable props env interviewer m ->
  callStatus (ui m) = FINISHED ->
  is_final_transcript message = true ->
  step props env interviewer m (Emitted (MessageEvent message)) = Some (m', out) ->
  feedback_calls out
  = [feedback_params props (messages (ui m) ++ [saved message])%list].
Proof.
  intros Htype Hreach Hfin Hfinal Hstep.
  pose proof (reachable_listeners _ _ _ _ Hreach) as Hl.
  pose proof (message_event_appends _ _ _ _ _ _ _ Hreach Hstep) as Happ.
  rewrite Hfinal in Happ.
  apply step_inv in Hstep.
  destruct Hstep as (p & m1 & out1 & out2 & Hp & E1 & E2 & -> & Hall & Hui).
  pose proof (rerender_cells _ _ _ _ _ E2) as (Heff & _).
  rewrite appended_app, (effect_no_appended _ Heff), app_nil_r in Happ.
  pose proof (handler_status_writes _ _ _ _ _ _ Hl Hp
                (consume (Emitted (MessageEvent message)) m)) as Hw.
  rewrite E1 in Hw. simpl in Hw.
  assert (Hmsgs : messages (ui m1) = (messages (ui m) ++ [saved message])%list)
    by (now rewrite Hui, replay_messages, Happ).
  assert (Hstatus : callStatus (ui m1) = FINISHED)
    by (now rewrite Hui, replay_status, Hw).
  rewrite feedback_calls_app, (handler_no_feedback_calls _ Hall). simpl.
  apply rerender_cases in E2.
  destruct E2 as [(Hdeps & _ & _) | (_ & E2)].
  - exfalso. unfold deps_changed in Hdeps. apply orb_false_elim in Hdeps.
    destruct Hdeps as [Hlen _].
    apply negb_false_iff, Nat.eqb_eq in Hlen.
    rewrite Hmsgs, length_app in Hlen. simpl in Hlen. lia.
  - rewrite Hstatus, Hmsgs in E2.
    pose proof (transcript_effect_finished props
                  (messages (ui m) ++ [saved message])%list m1 Htype)
      as (Hcalls & _).
    rewrite E2 in Hcalls. exact Hcalls.
Qed.

(** C1 at a concrete run.  An interview agent in an active call with one
    transcript entry; the user ends the call, then the SDK delivers one
    more final transcript.  The status has become [FINISHED] once, and
    [createFeedback] has been called twice: once with the one-entry
    transcript, once more with the two-entry transcript. *)
Theorem createFeedback_called_again_after_finish :
  callStatus (ui demo_active) = ACTIVE
  /\ match steps demo_interview demo_env demo_interviewer demo_active
                 [Click_end None; Emitted (MessageEvent demo_message)]
     with
     | Some (m, out) =>
         callStatus (ui m) = FINISHED
         /\ feedback_calls out
            = [ feedback_params demo_interview [saved demo_message];
                feedback_params demo_interview [saved demo_message; saved demo_message] ]
     | None => False
     end.
Proof. vm_compute. repeat split. Qed.


(** * Further properties of the agent *)

(** ** Turns of the event loop, by handler *)

Lemma step_of_handler (props : AgentProps.t) (env : ProcessEnv)
    (interviewer : option Assistant) (m : Machine) (ev : Event) (p : Proc) :
  handler props env interviewer m ev = Some p ->
  exists m1 out1 m' out2,
    exec p (consume ev m) = (m1, out1)
    /\ rerender props (ui m) m1 = (m', out2)
    /\ step props env interviewer m ev = Some (m', (out1 ++ out2)%list)
    /\ Forall effect_action out2.
Proof.
  intros Hp. unfold step. rewrite Hp.
  destruct (exec p (consume ev m)) as [m1 out1] eqn:E1.
  destruct (rerender props (ui m) m1) as [m' out2] eqn:E2.
  exists m1, out1, m', out2.
  split; [reflexivity | split; [exact E2 | split; [reflexivity | ]]].
  apply (rerender_cells _ _ _ _ _ E2).
Qed.

Lemma effect_quiet (out : list Action) :
  Forall effect_action out ->
  alerts out = [] /\ start_calls out = [] /\ console_errors out = []
  /\ stop_calls out = 0 /\ speaking_writes out = [].
Proof.
  unfold stop_calls.
  induction 1 as [ | a out Ha _ (H1 & H2 & H3 & H4 & H5)]; simpl; [now repeat split | ].
  rewrite H1, H2, H3, H5. destruct a; simpl in *; tauto.
Qed.

Lemma replay_speaking (out : list Action) :
  forall s, isSpeaking (replay out s) = last (speaking_writes out) (isSpeaking s).
Proof.
  induction out as [ | a out IH]; intros s; [reflexivity | ].
  simpl replay. rewrite IH.
  destruct a; try reflexivity.
  simpl speaking_writes. simpl app. now rewrite last_cons.
Qed.

Lemma handler_speaking_writes (props : AgentProps.t) (env : ProcessEnv)
    (interviewer : option Assistant) (m : Machine) (ev : Event) (p : Proc) :
  listeners m = subscriptions 0 ->
  handler props env interviewer m ev = Some p ->
  forall m0,
    speaking_writes (snd (exec p m0))
    = match ev with
      | Emitted SpeechStart => [true]
      | Emitted SpeechEnd => [false]
      | _ => []
      end.
Proof.
  intros Hl.
  destruct ev as [ | stop_error | task o | t | e]; simpl.
  - destruct (CallStatus_eqb _ _); [discriminate | ].
    intros E; inversion E; subst. reflexivity.
  - destruct (CallStatus_eqb _ _); [ | discriminate].
    intros E; inversion E; subst. intros m0. now destruct stop_error.
  - destruct (assoc task (awaiting m)) as [frame | ]; [ | discriminate].
    destruct frame, o; simpl; try discriminate;
      intros E; inversion E; subst; clear E; intros m0.
    + destruct r; [ | reflexivity].
      unfold resume_getUserMedia, handleCall_try.
      destruct (AgentProps.type props).
      * destruct (truthy (NEXT_PUBLIC_VAPI_WORKFLOW_ID env)); simpl; auto.
      * destruct interviewer; simpl; auto.
    + destruct r as [ | err]; [reflexivity | ]. now destruct err.
    + destruct r as [[ | ] [id | ] | err]; simpl; try reflexivity.
      now destruct (String.eqb id "").
  - destruct (assoc t (timers m)) as [[c] | ]; [ | discriminate].
    intros E; inversion E; subst. intros m0. destruct c; simpl; auto.
  - intros E; inversion E; subst. intros m0. rewrite Hl.
    destruct e as [ | | msg | | | err]; try reflexivity.
    unfold emit. simpl. unfold onMessage.
    now destruct (is_final_transcript msg).
Qed.

(** X1. In a mounted component the speaking indicator is set by the
    speech-start event, cleared by the speech-end event, and left as it
    is by every other event: the end of the call does not clear it. *)
Theorem isSpeaking_follows_speech_events (props : AgentProps.t) (env : ProcessEnv)
    (interviewer : option Assistant) (m m' : Machine) (ev : Event)
    (out : list Action) :
  reachable props env interviewer m ->
  step props env interviewer m ev = Some (m', out) ->
  isSpeaking (ui m')
  = match ev with
    | Emitted SpeechStart => true
    | Emitted SpeechEnd => false
    | _ => isSpeaking (ui m)
    end.
Proof.
  intros Hreach Hstep.
  pose proof (reachable_listeners _ _ _ _ Hreach) as Hl.
  pose proof (step_replay _ _ _ _ _ _ _ Hstep) as Hui.
  apply step_inv in Hstep.
  destruct Hstep as (p & m1 & out1 & out2 & Hp & E1 & E2 & -> & _ & _).
  pose proof (rerender_cells _ _ _ _ _ E2) as (Heff & _).
  pose proof (handler_speaking_writes _ _ _ _ _ _ Hl Hp (consume ev m)) as Hw.
  rewrite E1 in Hw. simpl in Hw.
  destruct (effect_quiet _ Heff) as (_ & _ & _ & _ & Hq).
  rewrite Hui, replay_speaking. unfold speaking_writes in *.
  rewrite flat_map_app, Hq, app_nil_r, Hw.
  destruct ev as [ | ? | ? ? | ? | [ | | ? | | | ?]]; reflexivity.
Qed.

(** ** Where the agent navigates *)

Lemma stays_no_pushes (out : list Action) : Forall stays out -> pushes out = [].
Proof.
  induction 1 as [ | a out Ha _ IH]; simpl; [reflexivity | ].
  rewrite IH. destruct a; simpl in *; tauto.
Qed.

Lemma call_stays (l : Listener) (e : VapiEvent) : only stays (call l e).
Proof. unfold call, onMessage. split_cases. Qed.

Lemma resume_createFeedback_one_push (props : AgentProps.t) (r : FeedbackResult)
    (m : Machine) :
  length (pushes (snd (exec (resume_createFeedback props r) m))) = 1.
Proof.
  destruct r as [[ | ] [id | ] | err]; simpl; try reflexivity.
  now destruct (String.eqb id "").
Qed.

(** The pushes of a handler: one when a [createFeedback] call settles
    (a turn that writes neither the status nor the transcript), none
    otherwise. *)
Lemma handler_pushes (props : AgentProps.t) (env : ProcessEnv)
    (interviewer : option Assistant) (m : Machine) (ev : Event) (p : Proc) :
  handler props env interviewer m ev = Some p ->
  forall m0,
    match ev with
    | Settled _ (feedback_settled _) =>
        length (pushes (snd (exec p m0))) = 1
        /\ status_writes (snd (exec p m0)) = []
        /\ appended (snd (exec p m0)) = []
    | _ => pushes (snd (exec p m0)) = []
    end.
Proof.
  destruct ev as [ | stop_error | task o | t | e]; simpl.
  - destruct (CallStatus_eqb _ _); [discriminate | ].
    intros E; inversion E; subst. reflexivity.
  - destruct (CallStatus_eqb _ _); [ | discriminate].
    intros E; inversion E; subst. intros m0. now destruct stop_error.
  - destruct (assoc task (awaiting m)) as [frame | ]; [ | discriminate].
    destruct frame, o; simpl; try discriminate;
      intros E; inversion E; subst; clear E; intros m0.
    + destruct r; [ | reflexivity].
      unfold resume_getUserMedia, handleCall_try.
      destruct (AgentProps.type props).
      * destruct (truthy (NEXT_PUBLIC_VAPI_WORKFLOW_ID env)); simpl; auto.
      * destruct interviewer; simpl; auto.
    + destruct r as [ | err]; [reflexivity | ]. now destruct err.
    + split; [apply resume_createFeedback_one_push | ].
      apply resume_createFeedback_pushes.
  - destruct (assoc t (timers m)) as [[c] | ]; [ | discriminate].
    intros E; inversion E; subst. intros m0. destruct c; simpl; auto.
  - intros E; inversion E; subst. intros m0.
    apply stays_no_pushes, exec_only. unfold emit.
    apply only_seq_all. apply Forall_map, Forall_forall.
    intros h _. apply call_stays.
Qed.

Lemma transcript_effect_pushes (props : AgentProps.t)
    (msgs : list SavedMessage.t) (c : CallStatus) (m : Machine) :
  let r := exec (transcript_effect props msgs c) m in
  pushes (snd r)
  = (if CallStatus_eqb c FINISHED
     then match AgentProps.type props with
          | generate => ["/"]
          | interview => []
          end
     else [])
  /\ (AgentProps.type props = generate -> feedback_calls (snd r) = []).
Proof.
  unfold transcript_effect.
  destruct (0 <? length msgs)%nat;
    [destruct (nth_error msgs (length msgs - 1)) | ];
    destruct c, (AgentProps.type props); simpl;
    split; try reflexivity; intros; try reflexivity; discriminate.
Qed.

(** X2. In every turn of the event loop the agent navigates at most
    once.  A turn in which a [createFeedback] call settles pushes the
    router exactly once; any other turn pushes it only if the agent is of
    type 'generate' and the turn ends with the status [FINISHED], and
    then to "/": an interview agent navigates only when a feedback call
    settles. *)
Theorem navigation_only_when_finished (props : AgentProps.t) (env : ProcessEnv)
    (interviewer : option Assistant) (m m' : Machine) (ev : Event)
    (out : list Action) :
  step props env interviewer m ev = Some (m', out) ->
  match ev with
  | Settled _ (feedback_settled _) => length (pushes out) = 1
  | _ =>
      pushes out = []
      \/ (pushes out = ["/"]
          /\ callStatus (ui m') = FINISHED
          /\ AgentProps.type props = generate)
  end.
Proof.
  intros Hstep. apply step_inv in Hstep.
  destruct Hstep as (p & m1 & out1 & out2 & Hp & E1 & E2 & -> & _ & Hui).
  pose proof (handler_pushes _ _ _ _ _ _ Hp (consume ev m)) as Hh.
  rewrite E1 in Hh. simpl in Hh.
  pose proof (rerender_cells _ _ _ _ _ E2) as (_ & Hstatus & _).
  rewrite pushes_app.
  assert (Hother : pushes out1 = [] ->
                   (pushes out1 ++ pushes out2)%list = []
                   \/ ((pushes out1 ++ pushes out2)%list = ["/"]
                       /\ callStatus (ui m') = FINISHED
                       /\ AgentProps.type props = generate)).
  { intros ->. simpl.
    apply rerender_cases in E2.
    destruct E2 as [(_ & _ & ->) | (_ & E2)]; [now left | ].
    pose proof (transcript_effect_pushes props (messages (ui m1))
                  (callStatus (ui m1)) m1) as [Hpush _].
    rewrite E2 in Hpush. simpl in Hpush. rewrite Hpush, Hstatus.
    destruct (CallStatus_eqb (callStatus (ui m1)) FINISHED) eqn:Ec; [ | now left].
    apply CallStatus_eqb_eq in Ec.
    destruct (AgentProps.type props); [right | left]; now repeat split. }
  destruct ev as [ | ? | task [r | r | r] | ? | ?]; try (apply Hother; exact Hh).
  destruct Hh as (Hone & Hs & Ha).
  unfold rerender in E2. rewrite Hui, (deps_unchanged _ _ Hs Ha) in E2.
  inversion E2; subst. simpl. now rewrite app_nil_r.
Qed.

(** X3. An agent of type 'generate' never calls [createFeedback],
    whatever happens; in the turn in which its call status becomes
    [FINISHED] it pushes the router to "/" exactly once. *)
Theorem generate_agent_goes_home (props : AgentProps.t) (env : ProcessEnv)
    (interviewer : option Assistant) (m m' : Machine) (ev : Event)
    (out : list Action) :
  AgentProps.type props = generate ->
  step props env interviewer m ev = Some (m', out) ->
  feedback_calls out = []
  /\ (callStatus (ui m) <> FINISHED -> callStatus (ui m') = FINISHED ->
      pushes out = ["/"]).
Proof.
  intros Htype Hstep.
  pose proof (navigation_only_when_finished _ _ _ _ _ _ _ Hstep) as Hnav.
  apply step_inv in Hstep.
  destruct Hstep as (p & m1 & out1 & out2 & Hp & E1 & E2 & -> & Hall & Hui).
  pose proof (rerender_cells _ _ _ _ _ E2) as (_ & Hstatus & _).
  pose proof (handler_pushes _ _ _ _ _ _ Hp (consume ev m)) as Hh.
  rewrite E1 in Hh. simpl in Hh.
  pose proof E2 as E2'. apply rerender_cases in E2'.
  split.
  - rewrite feedback_calls_app, (handler_no_feedback_calls _ Hall). simpl.
    destruct E2' as [(_ & _ & ->) | (_ & E2')]; [reflexivity | ].
    pose proof (transcript_effect_pushes props (messages (ui m1))
                  (callStatus (ui m1)) m1) as [_ Hcalls].
    rewrite E2' in Hcalls. now apply Hcalls.
  - intros Hbefore Hafter.
    assert (Hout1 : pushes out1 = []).
    { destruct ev as [ | ? | task [r | r | r] | ? | ?]; try exact Hh.
      exfalso. destruct Hh as (_ & Hs & _).
      rewrite Hstatus, Hui, replay_status, Hs in Hafter. simpl in Hafter.
      congruence. }
    rewrite pushes_app, Hout1. simpl.
    destruct E2' as [(Hdeps & _ & _) | (_ & E2')].
    + exfalso. unfold deps_changed in Hdeps. apply orb_false_elim in Hdeps.
      destruct Hdeps as [_ Hsame].
      apply negb_false_iff, CallStatus_eqb_eq in Hsame. congruence.
    + pose proof (transcript_effect_pushes props (messages (ui m1))
                    (callStatus (ui m1)) m1) as [Hpush _].
      rewrite E2' in Hpush. simpl in Hpush.
      now rewrite Hpush, <- Hstatus, Hafter, Htype.
Qed.

(** ** Ending a call *)

(** X4. The end button exists only while the status is [ACTIVE].
    [handleDisconnect] sets the status to [FINISHED] and calls
    [vapi.stop()] exactly once; if [vapi.stop()] throws, the error is
    caught and logged with [console.error], nothing is shown to the user,
    and the status is [FINISHED] all the same. *)
Theorem handleDisconnect_finishes (props : AgentProps.t) (env : ProcessEnv)
    (interviewer : option Assistant) (m : Machine) (stop_error : option Thrown) :
  (callStatus (ui m) = ACTIVE ->
   exists m' out,
     step props env interviewer m (Click_end stop_error) = Some (m', out)
     /\ callStatus (ui m') = FINISHED
     /\ stop_calls out = 1
     /\ alerts out = []
     /\ console_errors out
        = match stop_error with
          | Some e => [("Error stopping VAPI:", e)]
          | None => []
          end)
  /\ (callStatus (ui m) <> ACTIVE ->
      step props env interviewer m (Click_end stop_error) = None).
Proof.
  split.
  - intros Hactive.
    assert (Hp : handler props env interviewer m (Click_end stop_error)
                 = Some (handleDisconnect stop_error))
      by (simpl; now rewrite Hactive).
    destruct (step_of_handler _ _ _ _ _ _ Hp)
      as (m1 & out1 & m' & out2 & E1 & E2 & Hstep & Heff).
    pose proof (rerender_cells _ _ _ _ _ E2) as (_ & Hstatus & _).
    destruct (effect_quiet _ Heff) as (Ha & _ & Hc & Hs & _).
    exists m', (out1 ++ out2)%list.
    split; [exact Hstep | ].
    unfold alerts, console_errors, stop_calls in *.
    rewrite filter_app, length_app, !flat_map_app, Ha, Hc, Hs, Hstatus.
    destruct stop_error; simpl in E1; inversion E1; subst; now repeat split.
  - intros Hother. unfold step. simpl.
    destruct (CallStatus_eqb (callStatus (ui m)) ACTIVE) eqn:E; [ | reflexivity].
    now apply CallStatus_eqb_eq in E.
Qed.

(** ** Starting the SDK *)

Lemma starts_nothing_no_start_calls (out : list Action) :
  Forall starts_nothing out -> start_calls out = [].
Proof.
  induction 1 as [ | a out Ha _ IH]; simpl; [reflexivity | ].
  rewrite IH. destruct a; simpl in *; tauto.
Qed.

Lemma call_starts_nothing (l : Listener) (e : VapiEvent) :
  only starts_nothing (call l e).
Proof. unfold call, onMessage. split_cases. Qed.

(** What the handlers do about [vapi.start]: it is called only by the
    rest of [handleCall] after the microphone was granted, and there
    either once, or not at all when the start fails at once. *)
Lemma handler_starts (props : AgentProps.t) (env : ProcessEnv)
    (interviewer : option Assistant) (m : Machine) (ev : Event) (p : Proc) :
  handler props env interviewer m ev = Some p ->
  forall m0,
    match ev with
    | Settled _ (media_settled MediaGranted) =>
        (length (start_calls (snd (exec p m0))) = 1
         /\ status_writes (snd (exec p m0)) = [CONNECTING]
         /\ alerts (snd (exec p m0)) = [])
        \/ (start_calls (snd (exec p m0)) = []
            /\ status_writes (snd (exec p m0)) = [CONNECTING; INACTIVE]
            /\ length (alerts (snd (exec p m0))) = 1)
    | _ => start_calls (snd (exec p m0)) = []
    end.
Proof.
  destruct ev as [ | stop_error | task o | t | e]; simpl.
  - destruct (CallStatus_eqb _ _); [discriminate | ].
    intros E; inversion E; subst. reflexivity.
  - destruct (CallStatus_eqb _ _); [ | discriminate].
    intros E; inversion E; subst. intros m0. now destruct stop_error.
  - destruct (assoc task (awaiting m)) as [frame | ]; [ | discriminate].
    destruct frame, o; simpl; try discriminate;
      intros E; inversion E; subst; clear E; intros m0.
    + destruct r; [ | reflexivity].
      unfold resume_getUserMedia, handleCall_try.
      destruct (AgentProps.type props).
      * destruct (truthy (NEXT_PUBLIC_VAPI_WORKFLOW_ID env)); simpl;
          [left | right]; now repeat split.
      * destruct interviewer; simpl; [left | right]; now repeat split.
    + destruct r as [ | err]; [reflexivity | ]. now destruct err.
    + destruct r as [[ | ] [id | ] | err]; simpl; try reflexivity.
      now destruct (String.eqb id "").
  - destruct (assoc t (timers m)) as [[c] | ]; [ | discriminate].
    intros E; inversion E; subst. intros m0. destruct c; simpl; auto.
  - intros E; inversion E; subst. intros m0.
    apply starts_nothing_no_start_calls, exec_only. unfold emit.
    apply only_seq_all. apply Forall_map, Forall_forall.
    intros h _. apply call_starts_nothing.
Qed.

(** X5. [vapi.start] is called only in the turn in which the
    microphone request of a [handleCall] is granted, and at most once
    there.  That turn ends either with one start call and the status
    [CONNECTING], or, when the start fails before the SDK is called, with
    no start call, one alert and the status [INACTIVE]; no other event
    starts the SDK. *)
Theorem vapi_start_only_after_microphone (props : AgentProps.t) (env : ProcessEnv)
    (interviewer : option Assistant) (m m' : Machine) (ev : Event)
    (out : list Action) :
  step props env interviewer m ev = Some (m', out) ->
  match ev with
  | Settled _ (media_settled MediaGranted) =>
      (length (start_calls out) = 1 /\ alerts out = []
       /\ callStatus (ui m') = CONNECTING)
      \/ (start_calls out = [] /\ length (alerts out) = 1
          /\ callStatus (ui m') = INACTIVE)
  | _ => start_calls out = []
  end.
Proof.
  intros Hstep.
  pose proof (step_replay _ _ _ _ _ _ _ Hstep) as Hui.
  apply step_inv in Hstep.
  destruct Hstep as (p & m1 & out1 & out2 & Hp & E1 & E2 & -> & _ & _).
  pose proof (rerender_cells _ _ _ _ _ E2) as (Heff & _).
  destruct (effect_quiet _ Heff) as (Ha & Hs & _).
  pose proof (handler_starts _ _ _ _ _ _ Hp (consume ev m)) as Hh.
  rewrite E1 in Hh. simpl in Hh.
  rewrite Hui, replay_status, status_writes_app, (effect_no_status_writes _ Heff),
    app_nil_r.
  unfold start_calls, alerts in *.
  rewrite !flat_map_app, Ha, Hs, !app_nil_r.
  destruct ev as [ | ? | task [[ | err] | r | r] | ? | ?]; try exact Hh.
  destruct Hh as [(H1 & -> & H3) | (H1 & -> & H3)]; [left | right]; now repeat split.
Qed.

Lemma formattedQuestions_guard (questions : option (list string)) :
  match questions with
  | Some ((_ :: _) as qs) => format_questions qs
  | _ => ""
  end = formattedQuestions questions.
Proof. destruct questions as [[ | q qs] | ]; reflexivity. Qed.

Lemma interview_granted (props : AgentProps.t) (env : ProcessEnv)
    (interviewer : option Assistant) (c : CallStatus) (m0 : Machine) :
  AgentProps.type props = interview ->
  let r := exec (resume_getUserMedia props env interviewer c MediaGranted) m0 in
  match interviewer with
  | Some the_interviewer =>
      start_calls (snd r)
      = [ (TargetAssistant the_interviewer,
           {| variableValues :=
                [("questions", formattedQuestions (AgentProps.questions props))] |}) ]
      /\ alerts (snd r) = []
      /\ callStatus (ui (fst r)) = CONNECTING
  | None =>
      start_calls (snd r) = []
      /\ alerts (snd r)
         = ["Failed to start call: Interviewer configuration is not available"]
      /\ callStatus (ui (fst r)) = INACTIVE
  end.
Proof.
  intros Htype. unfold resume_getUserMedia, handleCall_try.
  rewrite Htype, formattedQuestions_guard.
  destruct interviewer as [a | ];
    destruct (AgentProps.questions props) as [[ | q qs] | ];
    (split; [ | split]); reflexivity.
Qed.

(** X6. When the microphone is granted to the [handleCall] of an
    interview agent, the SDK is started with the [interviewer] assistant
    and one variable, [questions]: the questions each prefixed with "- "
    and joined by line feeds, the empty string when the prop is missing
    or empty.  If the [interviewer] configuration is not available the
    SDK is not started: the user sees "Failed to start call: Interviewer
    configuration is not available" and the status is [INACTIVE]. *)
Theorem interview_start (props : AgentProps.t) (env : ProcessEnv)
    (interviewer : option Assistant) (m : Machine) (task : TaskId)
    (c : CallStatus) :
  AgentProps.type props = interview ->
  assoc task (awaiting m) = Some (handleCall_getUserMedia c) ->
  exists m' out,
    step props env interviewer m (Settled task (media_settled MediaGranted))
    = Some (m', out)
    /\ match interviewer with
       | Some the_interviewer =>
           start_calls out
           = [ (TargetAssistant the_interviewer,
                {| variableValues :=
                     [("questions", formattedQuestions (AgentProps.questions props))] |}) ]
           /\ alerts out = []
           /\ callStatus (ui m') = CONNECTING
       | None =>
           start_calls out = []
           /\ alerts out
              = ["Failed to start call: Interviewer configuration is not available"]
           /\ callStatus (ui m') = INACTIVE
       end.
Proof.
  intros Htype Hassoc.
  assert (Hp : handler props env interviewer m
                 (Settled task (media_settled MediaGranted))
               = Some (resume_getUserMedia props env interviewer c MediaGranted)).
  { unfold handler. now rewrite Hassoc. }
  destruct (step_of_handler _ _ _ _ _ _ Hp)
    as (m1 & out1 & m' & out2 & E1 & E2 & Hstep & Heff).
  pose proof (rerender_cells _ _ _ _ _ E2) as (_ & Hstatus & _).
  destruct (effect_quiet _ Heff) as (Ha & Hs & _).
  exists m', (out1 ++ out2)%list.
  split; [exact Hstep | ].
  unfold start_calls, alerts in *.
  rewrite !flat_map_app, Ha, Hs, !app_nil_r, Hstatus.
  pose proof (interview_granted props env interviewer c
                (consume (Settled task (media_settled MediaGranted)) m) Htype) as H.
  cbv zeta in H. rewrite E1 in H. exact H.
Qed.

(** ** The connect timer *)

Lemma exec_timers (p : Proc) :
  forall m, only keeps_timers p -> timers (fst (exec p m)) = timers m.
Proof.
  induction p as [ | a k IH | call frame | cb ms k IH ]; intros m H; simpl in *.
  - reflexivity.
  - destruct H as [Ha Hk]. specialize (IH (perform a m) Hk).
    destruct (exec k (perform a m)) as [m' out]; simpl in *.
    rewrite IH. destruct a; simpl in *; tauto.
  - destruct call; simpl in *; tauto.
  - destruct (H 0) as [[] _].
Qed.

Lemma rerender_timers (props : AgentProps.t) (before : AgentState)
    (m1 m2 : Machine) (out2 : list Action) :
  rerender props before m1 = (m2, out2) -> timers m2 = timers m1.
Proof.
  intros H. apply rerender_cases in H.
  destruct H as [(_ & -> & _) | (_ & H)]; [reflexivity | ].
  pose proof (exec_timers
                (transcript_effect props (messages (ui m1)) (callStatus (ui m1))) m1)
    as Ht.
  rewrite H in Ht. apply Ht.
  apply only_weaken with (P := effect_action).
  - intros a; destruct a; simpl; tauto.
  - apply transcript_effect_actions.
Qed.

Lemma assoc_drop {A : Type} (k : nat) (l : list (nat * A)) :
  assoc k (drop k l) = None.
Proof.
  induction l as [ | [k' v] l IH]; simpl; [reflexivity | ].
  destruct (Nat.eqb_spec k k') as [-> | Hne]; simpl; [exact IH | ].
  destruct (Nat.eqb_spec k k'); [contradiction | exact IH].
Qed.

Lemma assoc_drop_other {A : Type} (k k' : nat) (l : list (nat * A)) :
  k <> k' -> assoc k (drop k' l) = assoc k l.
Proof.
  intros Hne.
  induction l as [ | [k0 v] l IH]; simpl; [reflexivity | ].
  destruct (Nat.eqb_spec k' k0) as [-> | Hne0]; simpl.
  - destruct (Nat.eqb_spec k k0); [contradiction | exact IH].
  - destruct (Nat.eqb_spec k k0); [reflexivity | exact IH].
Qed.

(** X7. What the connect timeout does when it fires depends only on
    the call status the [handleCall] that armed it was created with, not
    on the status at the time.  If [handleCall] was created while the
    status was [CONNECTING] (a second click on the call button), the
    callback resets the status to [INACTIVE] whatever it has become; in
    every other case it does nothing at all.  Either way the timer is
    gone afterwards. *)
Theorem connect_timeout_uses_captured_status (props : AgentProps.t)
    (env : ProcessEnv) (interviewer : option Assistant) (m : Machine)
    (t : TimerId) (c : CallStatus) :
  assoc t (timers m) = Some (connectTimeout_callback c) ->
  exists m' out,
    step props env interviewer m (Timer_fired t) = Some (m', out)
    /\ assoc t (timers m') = None
    /\ (c = CONNECTING -> callStatus (ui m') = INACTIVE)
    /\ (c <> CONNECTING -> out = [] /\ ui m' = ui m).
Proof.
  intros Hassoc.
  assert (Hp : handler props env interviewer m (Timer_fired t)
               = Some (run_callback (connectTimeout_callback c))).
  { unfold handler. now rewrite Hassoc. }
  destruct (step_of_handler _ _ _ _ _ _ Hp)
    as (m1 & out1 & m' & out2 & E1 & E2 & Hstep & Heff).
  pose proof (rerender_cells _ _ _ _ _ E2) as (_ & Hstatus & _).
  pose proof (rerender_timers _ _ _ _ _ E2) as Htimers.
  exists m', (out1 ++ out2)%list.
  split; [exact Hstep | ].
  rewrite Htimers, Hstatus.
  destruct c; simpl in E1; inversion E1; subst; simpl;
    (split; [apply assoc_drop | ]);
    (split; [intros H; try discriminate; reflexivity | ]);
    intros H; try congruence;
    unfold rerender, deps_changed in E2; simpl in E2;
    rewrite Nat.eqb_refl, CallStatus_eqb_refl in E2; simpl in E2;
    inversion E2; subst; now split.
Qed.

(** X8. When a [vapi.start] call settles, fulfilled or rejected, the
    rest of [handleCall] clears the connect timer it armed: after that
    turn the timer cannot fire any more. *)
Theorem settled_start_clears_timer (props : AgentProps.t) (env : ProcessEnv)
    (interviewer : option Assistant) (m : Machine) (task : TaskId)
    (connectTimeout : TimerId) (r : StartResult) :
  assoc task (awaiting m) = Some (handleCall_start connectTimeout) ->
  exists m' out,
    step props env interviewer m (Settled task (start_settled r)) = Some (m', out)
    /\ assoc connectTimeout (timers m') = None
    /\ step props env interviewer m' (Timer_fired connectTimeout) = None
    /\ forall t, t <> connectTimeout -> assoc t (timers m') = assoc t (timers m).
Proof.
  intros Hassoc.
  assert (Hp : handler props env interviewer m (Settled task (start_settled r))
               = Some (resume_start props connectTimeout r)).
  { unfold handler. now rewrite Hassoc. }
  destruct (step_of_handler _ _ _ _ _ _ Hp)
    as (m1 & out1 & m' & out2 & E1 & E2 & Hstep & Heff).
  pose proof (rerender_timers _ _ _ _ _ E2) as Htimers.
  exists m', (out1 ++ out2)%list.
  split; [exact Hstep | ].
  assert (H1 : timers m1 = drop connectTimeout (timers m)).
  { pose proof (f_equal (fun r => timers (fst r)) E1) as H. simpl in H.
    rewrite <- H. destruct r as [ | [ | | ]]; reflexivity. }
  rewrite Htimers, H1.
  split; [apply assoc_drop | split].
  - unfold step, handler. now rewrite Htimers, H1, assoc_drop.
  - intros t Hne. now apply assoc_drop_other.
Qed.

(** * Properties of the form's submission *)

(** Case analysis on how the awaited calls settle, in the order the
    script makes them. *)
Ltac settle :=
  repeat (simpl;
          match goal with
          | |- context [Submit.try_ _ ?r] =>
              let E := fresh "E" in destruct r eqn:E
          | |- context [match ?e with Submit.nullish => _ | Submit.thrown _ => _ end] =>
              destruct e
          | |- context [if ?b then _ else _] =>
              let E := fresh "E" in destruct b eqn:E
          end);
  simpl.

(** X9. Whatever the form type and however the awaited calls settle,
    [onSubmit] begins by setting [isLoading] to true and ends by setting
    it to false, and writes it at no other point: the submit button is
    disabled for the whole submission and enabled again after it, also
    after an early return or an error. *)
Theorem onSubmit_loading (type : FormType) (data : Submit.FormValues)
    (backend : Submit.Backend) :
  let trace := Submit.run (Submit.onSubmit type data) backend in
  Submit.loading_writes trace = [true; false]
  /\ exists between,
      trace = (Submit.did (Submit.setIsLoading true) :: between
                 ++ [Submit.did (Submit.setIsLoading false)])%list.
Proof.
  cbv zeta. unfold Submit.onSubmit.
  destruct type; settle;
    (split; [reflexivity | ]);
    match goal with
    | |- exists between, _ :: ?l = _ :: _ =>
        exists (removelast l); reflexivity
    end.
Qed.

(** X10. A submission shows at most one toast.  Either it is a success
    toast, the router is pushed once (to "/sign-in" after a sign-up, to
    "/" after a sign-in), no call was rejected and [onSubmit] returns; or
    it is an error toast, the router is not pushed and [onSubmit]
    returns; or a call was rejected with [null] or [undefined]: then the
    [catch] block throws on reading [error.code], no toast is shown, the
    router is not pushed, and the exception leaves [onSubmit] after the
    [finally] block. *)
Theorem onSubmit_one_toast (type : FormType) (data : Submit.FormValues)
    (backend : Submit.Backend) :
  let trace := Submit.run (Submit.onSubmit type data) backend in
  (exists text,
      Submit.toasts trace = [Submit.toast_success text]
      /\ Submit.pushes trace = [match type with
                                | sign_up => "/sign-in"
                                | sign_in => "/"
                                end]
      /\ Submit.rejections trace = []
      /\ Submit.returns (Submit.onSubmit type data) backend = true)
  \/ (exists text,
        Submit.toasts trace = [Submit.toast_error text]
        /\ Submit.pushes trace = []
        /\ Submit.returns (Submit.onSubmit type data) backend = true)
  \/ (Submit.rejections trace = [Submit.nullish]
      /\ Submit.toasts trace = []
      /\ Submit.pushes trace = []
      /\ Submit.returns (Submit.onSubmit type data) backend = false).
Proof.
  cbv zeta. unfold Submit.onSubmit.
  destruct type; settle;
    try (left; eexists; repeat split; reflexivity);
    try (right; left; eexists; repeat split; reflexivity);
    right; right; repeat split; reflexivity.
Qed.

(** X11. A rejection of any awaited call ends the submission: at most
    one call is rejected in a run, every rejection is logged with
    [console.error] and nothing else is.  If the rejected value is not
    [null] or [undefined], the toast shows the message for its code: the
    specific text for the five known Firebase codes, "An unexpected error
    occurred. Please try again." for any other code or none, and
    [onSubmit] returns.  If it is [null] or [undefined], no toast is
    shown and an exception leaves [onSubmit]; that is the only way
    [onSubmit] throws. *)
Theorem onSubmit_rejection (type : FormType) (data : Submit.FormValues)
    (backend : Submit.Backend) :
  let trace := Submit.run (Submit.onSubmit type data) backend in
  Submit.logged_errors trace = Submit.rejections trace
  /\ length (Submit.rejections trace) <= 1
  /\ (forall error,
         Submit.rejections trace = [Submit.thrown error] ->
         Submit.toasts trace = [Submit.toast_error (Submit.errorMessage error)]
         /\ Submit.returns (Submit.onSubmit type data) backend = true)
  /\ (Submit.rejections trace = [Submit.nullish] ->
      Submit.toasts trace = []
      /\ Submit.returns (Submit.onSubmit type data) backend = false)
  /\ (Submit.returns (Submit.onSubmit type data) backend = false ->
      Submit.rejections trace = [Submit.nullish])
  /\ (forall c,
         c <> "auth/email-already-in-use" -> c <> "auth/weak-password" ->
         c <> "auth/user-not-found" -> c <> "auth/wrong-password" ->
         c <> "auth/invalid-email" ->
         Submit.errorMessage {| Submit.code := Some c |}
         = Submit.errorMessage {| Submit.code := None |}).
Proof.
  cbv zeta. split; [ | split; [ | split; [ | split; [ | split]]]].
  - unfold Submit.onSubmit.
    destruct type; settle; reflexivity.
  - unfold Submit.onSubmit.
    destruct type; settle; lia.
  - unfold Submit.onSubmit.
    destruct type; settle; intros caught H; inversion H; subst;
      split; reflexivity.
  - unfold Submit.onSubmit.
    destruct type; settle; intros H; inversion H; split; reflexivity.
  - unfold Submit.onSubmit.
    destruct type; settle; intros H; try discriminate; reflexivity.
  - intros c H1 H2 H3 H4 H5. unfold Submit.errorMessage. simpl.
    repeat match goal with
           | |- context [String.eqb c ?s] =>
               destruct (String.eqb_spec c s); [contradiction | ]
           end.
    reflexivity.
Qed.

(** X12. The backend actions run only after Firebase has answered.
    [signUp] is called only in a sign-up whose account creation was
    fulfilled, with the uid of the created user and the submitted name,
    email and password; [signIn] is called only in a sign-in whose
    Firebase sign-in was fulfilled and whose user yielded a non-empty id
    token, with the submitted email and that token.  Firebase itself is
    called exactly once per submission, with the submitted email and
    password. *)
Theorem onSubmit_backend_calls (type : FormType) (data : Submit.FormValues)
    (backend : Submit.Backend) :
  let trace := Submit.run (Submit.onSubmit type data) backend in
  Submit.firebase_calls trace = [(Submit.email data, Submit.password data)]
  /\ (forall params,
         In params (Submit.signUp_calls trace) ->
         type = sign_up
         /\ exists userCredential,
             Submit.firebase backend
               (Submit.createUserWithEmailAndPassword
                  (Submit.email data) (Submit.password data))
             = Submit.Fulfilled userCredential
             /\ params = {| Submit.signUp_uid := Submit.uid userCredential;
                            Submit.signUp_name := Submit.name data;
                            Submit.signUp_email := Submit.email data;
                            Submit.signUp_password := Submit.password data |})
  /\ (forall params,
         In params (Submit.signIn_calls trace) ->
         type = sign_in
         /\ Submit.signIn_email params = Submit.email data
         /\ Submit.signIn_idToken params <> ""
         /\ exists userCredential,
             Submit.firebase backend
               (Submit.signInWithEmailAndPassword
                  (Submit.email data) (Submit.password data))
             = Submit.Fulfilled userCredential
             /\ Submit.getIdToken backend userCredential
                = Submit.Fulfilled (Submit.signIn_idToken params)).
Proof.
  cbv zeta. unfold Submit.onSubmit.
  split; [ | split].
  - destruct type; settle; reflexivity.
  - destruct type; settle; intros params Hin;
      repeat (destruct Hin as [Hin | Hin]); try contradiction; subst;
      (split; [reflexivity | ]); eexists; split; reflexivity.
  - destruct type; settle; intros params Hin;
      repeat (destruct Hin as [Hin | Hin]); try contradiction; subst;
      (split; [reflexivity | ]); (split; [reflexivity | ]); simpl;
      (split; [ | eexists; split; [reflexivity | assumption]]).
    all: intros ->; discriminate.
Qed.

(** X13. Submitted through the form, nothing reaches Firebase unless
    the schema accepts the fields: a rejected submission has no effect at
    all, and whenever Firebase is called, to create an account or to sign
    in, it receives the submitted email, which is a valid email address,
    and the submitted password, which has at least 6 characters; in a
    sign-up the name has at least 3 characters. *)
Theorem handleSubmit_validated (is_email : string -> bool) (type : FormType)
    (data : AuthData) (backend : Submit.Backend) :
  (accepts is_email (FirebaseAuthForm.authFormSchema type) data = false ->
   handleSubmit is_email type data backend = [])
  /\ (forall e p,
         In (e, p) (Submit.firebase_calls (handleSubmit is_email type data backend)) ->
         email data = Zod.str e /\ is_email e = true
         /\ password data = Zod.str p /\ 6 <= String.length p
         /\ (type = sign_up ->
             exists n, name data = Zod.str n /\ 3 <= String.length n)).
Proof.
  unfold handleSubmit. split.
  - intros ->. reflexivity.
  - intros e p Hin.
    destruct (accepts is_email (FirebaseAuthForm.authFormSchema type) data) eqn:Hacc;
      [ | contradiction].
    apply accepts_iff in Hacc. destruct Hacc as (Hname & Hemail & Hpw).
    assert (Hemail' : valid_email is_email (email data))
      by (apply (parse_email is_email "Please enter a valid email address");
          exact Hemail).
    assert (Hpw' : at_least 6 (password data))
      by (apply (parse_min is_email 6 "Password must be at least 6 characters");
          exact Hpw).
    destruct Hemail' as (e' & He & Hvalid). destruct Hpw' as (p' & Hp & Hlen).
    destruct (onSubmit_backend_calls type (submitted_values data) backend)
      as (Hcalls & _).
    rewrite Hcalls in Hin. destruct Hin as [Hin | []].
    unfold submitted_values in Hin. simpl in Hin. rewrite He, Hp in Hin.
    inversion Hin; subst.
    split; [assumption | split; [assumption | split; [assumption | ]]].
    split; [assumption | ].
    intros ->.
    apply (parse_min is_email 3 "Name must be at least 3 characters").
    exact Hname.
Qed.

(** ** What the schemas accept *)

Lemma parse_optional_string (is_email : string -> bool) (v : Zod.Value) :
  Zod.parse is_email (Zod.optional (Zod.string_ [])) v = []
  <-> name_ok sign_in v.
Proof.
  unfold name_ok. destruct v as [ | s | t]; simpl.
  - split; [now left | reflexivity].
  - split; [right; now exists s | reflexivity].
  - split; [discriminate | intros [H | (s & H)]; discriminate].
Qed.

(** X14. Both schemas accept a submission exactly when the email field
    holds a valid email address, the password a string of at least 8
    characters (6 in the form that signs in through Firebase), and the
    name, for a sign-up, a string of at least 3 characters; for a sign-in
    the name may be absent or any string, but not a value of another
    type. *)
Theorem authFormSchema_accepts_iff (is_email : string -> bool) (type : FormType)
    (data : AuthData) :
  (accepts is_email (AuthForm.authFormSchema type) data = true
   <-> name_ok type (name data)
       /\ valid_email is_email (email data)
       /\ at_least 8 (password data))
  /\ (accepts is_email (FirebaseAuthForm.authFormSchema type) data = true
      <-> name_ok type (name data)
          /\ valid_email is_email (email data)
          /\ at_least 6 (password data)).
Proof.
  split; rewrite accepts_iff;
    unfold AuthForm.authFormSchema, FirebaseAuthForm.authFormSchema;
    cbn [name_schema email_schema password_schema];
    rewrite parse_email, parse_min;
    (destruct type; [rewrite parse_optional_string | unfold name_ok; rewrite parse_min]);
    reflexivity.
Qed.

(** * Properties of the home page *)

(** X15. Without a logged-in user (none, or one with an empty id)
    [Home] makes no query and returns the login prompt.  With one it
    makes exactly the two interview queries, both for that user's id; if
    both resolve, each section of the dashboard shows one card per
    interview returned, in the order returned, every card with that
    user's id, and the empty state when the query resolved to [null] or
    to an empty list; if either query is rejected [Home] throws. *)
Theorem Home_sections (user : option HomePage.User)
    (backend : HomePage.Query -> HomePage.Answer) :
  match user with
  | None => HomePage.Home user backend = ([], HomePage.Rendered HomePage.LoginPrompt)
  | Some u =>
      (HomePage.id u = "" ->
       HomePage.Home user backend = ([], HomePage.Rendered HomePage.LoginPrompt))
      /\ (HomePage.id u <> "" ->
          fst (HomePage.Home user backend)
          = [HomePage.getInterviewsByUserId (HomePage.id u);
             HomePage.getLatestInterviews (HomePage.id u)]
          /\ (forall a b,
                 backend (HomePage.getInterviewsByUserId (HomePage.id u))
                 = HomePage.Resolved a ->
                 backend (HomePage.getLatestInterviews (HomePage.id u))
                 = HomePage.Resolved b ->
                 exists history available,
                   snd (HomePage.Home user backend)
                   = HomePage.Rendered (HomePage.Dashboard history available)
                   /\ map HomePage.card_interviewId (HomePage.cards_of history)
                      = map HomePage.interview_id
                            (match a with Some l => l | None => [] end)
                   /\ map HomePage.card_interviewId (HomePage.cards_of available)
                      = map HomePage.interview_id
                            (match b with Some l => l | None => [] end)
                   /\ Forall (fun c => HomePage.card_userId c = HomePage.id u)
                             (HomePage.cards_of history ++ HomePage.cards_of available)
                   /\ (history = HomePage.EmptyState
                       <-> a = None \/ a = Some [])
                   /\ (available = HomePage.EmptyState
                       <-> b = None \/ b = Some []))
          /\ (backend (HomePage.getInterviewsByUserId (HomePage.id u))
              = HomePage.Failed
              \/ backend (HomePage.getLatestInterviews (HomePage.id u))
                 = HomePage.Failed ->
              snd (HomePage.Home user backend) = HomePage.Threw))
  end.
Proof.
  assert (Hsection : forall u a,
             map HomePage.card_interviewId
                 (HomePage.cards_of (HomePage.section u a))
             = map HomePage.interview_id (match a with Some l => l | None => [] end)
             /\ Forall (fun c => HomePage.card_userId c = HomePage.id u)
                       (HomePage.cards_of (HomePage.section u a))
             /\ (HomePage.section u a = HomePage.EmptyState
                 <-> a = None \/ a = Some [])).
  { intros u [[ | x l] | ]; simpl.
    - repeat split; auto.
    - split; [ | split].
      + f_equal. rewrite map_map. reflexivity.
      + constructor; [reflexivity | ].
        apply Forall_map, Forall_forall. reflexivity.
      + split; [discriminate | intros [H | H]; discriminate].
    - repeat split; auto. }
  destruct user as [u | ]; [ | reflexivity].
  unfold HomePage.Home.
  destruct (String.eqb_spec (HomePage.id u) "") as [Hid | Hid].
  - split; [reflexivity | contradiction].
  - split; [contradiction | ]. intros _.
    split; [ | split].
    + destruct (backend (HomePage.getInterviewsByUserId (HomePage.id u))),
        (backend (HomePage.getLatestInterviews (HomePage.id u))); reflexivity.
    + intros a b -> ->. simpl.
      exists (HomePage.section u a), (HomePage.section u b).
      destruct (Hsection u a) as (Ha1 & Ha2 & Ha3).
      destruct (Hsection u b) as (Hb1 & Hb2 & Hb3).
      repeat split; try assumption; try apply Ha3; try apply Hb3.
      apply Forall_app. now split.
    + intros [-> | ->]; [reflexivity | ].
      destruct (backend (HomePage.getInterviewsByUserId (HomePage.id u)));
        reflexivity.
Qed.

(** * The questions handed to the interviewer *)

Lemma string_append_assoc (a b c : string) : (a ++ b) ++ c = a ++ (b ++ c).
Proof. induction a as [ | x a IH]; simpl; [reflexivity | now rewrite IH]. Qed.

(** X16. Formatting puts every question on a line of its own, prefixed
    with "- ": no list gives the empty string, one question gives one
    line without a line feed, and formatting two non-empty lists one
    after the other is formatting each and joining the results with one
    line feed. *)
Theorem format_questions_app (qs1 qs2 : list string) :
  qs1 <> [] -> qs2 <> [] ->
  format_questions [] = ""
  /\ (forall q, format_questions [q] = "- " ++ q)
  /\ format_questions (qs1 ++ qs2)
     = format_questions qs1 ++ LF ++ format_questions qs2.
Proof.
  intros H1 H2. split; [reflexivity | split; [reflexivity | ]].
  unfold format_questions.
  induction qs1 as [ | q qs1 IH]; [contradiction | ].
  destruct qs1 as [ | q' qs1].
  - destruct qs2 as [ | q2 qs2]; [contradiction | reflexivity].
  - change (map (fun question => "- " ++ question) ((q :: q' :: qs1) ++ qs2))
      with (("- " ++ q)
              :: map (fun question => "- " ++ question) ((q' :: qs1) ++ qs2)).
    change (map (fun question => "- " ++ question) (q :: q' :: qs1))
      with (("- " ++ q) :: map (fun question => "- " ++ question) (q' :: qs1)).
    assert (Hcons : forall x l, l <> [] ->
                      String.concat LF (x :: l) = x ++ LF ++ String.concat LF l).
    { intros x [ | y l] Hl; [contradiction | reflexivity]. }
    rewrite !Hcons by (simpl; discriminate).
    rewrite IH by discriminate.
    now rewrite !string_append_assoc.
Qed.

(** * After the cleanup *)

Lemma unsubscribe_all (run : nat) (l : list (string * Handler)) :
  emitter_off "error" (run, ErrorFn)
    (emitter_off "speech-end" (run, SpeechEndFn)
       (emitter_off "speech-start" (run, SpeechStartFn)
          (emitter_off "message" (run, MessageFn)
             (emitter_off "call-end" (run, CallEndFn)
                (emitter_off "call-start" (run, CallStartFn)
                   (l ++ subscriptions run)%list))))) = l.
Proof.
  unfold subscriptions.
  change (l ++ ?a :: ?b :: ?c :: ?d :: ?e :: [?f])%list
    with (l ++ [a] ++ [b] ++ [c] ++ [d] ++ [e] ++ [f])%list.
  rewrite !app_assoc.
  do 5 (rewrite emitter_off_skip by reflexivity).
  rewrite emitter_off_last.
  do 4 (rewrite emitter_off_skip by reflexivity).
  rewrite emitter_off_last.
  do 3 (rewrite emitter_off_skip by reflexivity).
  rewrite emitter_off_last.
  do 2 (rewrite emitter_off_skip by reflexivity).
  rewrite emitter_off_last.
  rewrite emitter_off_skip by reflexivity.
  rewrite emitter_off_last.
  apply emitter_off_last.
Qed.

Lemma subscribe_listeners (props : AgentProps.t) (run : nat) (m : Machine) :
  listeners (fst (exec (subscribe props run) m))
  = (listeners m ++ subscriptions run)%list.
Proof.
  simpl. unfold emitter_on, subscriptions. now rewrite <- !app_assoc.
Qed.

(** X17. Once the cleanup of the subscription effect has run, the
    events of the SDK no longer reach the component: whichever event the
    SDK emits, no handler runs, no state cell changes and nothing is
    called.  If the effect then runs again, the functions registered are
    exactly the six of the new run, so every event is still handled
    once. *)
Theorem cleanup_silences_events (props : AgentProps.t) (env : ProcessEnv)
    (interviewer : option Assistant) (m : Machine) (run : nat) :
  listeners m = subscriptions run ->
  let cleaned := fst (unmount run m) in
  (forall e, step props env interviewer cleaned (Emitted e) = Some (cleaned, []))
  /\ (forall run',
         listeners (fst (exec (subscribe props run') cleaned)) = subscriptions run').
Proof.
  intros Hl. cbv zeta.
  assert (Hclean : listeners (fst (unmount run m)) = []).
  { unfold unmount. simpl. rewrite Hl. apply (unsubscribe_all run []). }
  split.
  - intros e. unfold step, handler. rewrite Hclean.
    unfold emit, registered. simpl.
    unfold rerender, deps_changed.
    now rewrite Nat.eqb_refl, CallStatus_eqb_refl.
  - intros run'. now rewrite subscribe_listeners, Hclean.
Qed.

(** * Instances of the further properties *)

Lemma demo_connecting_reachable :
  reachable demo_interview demo_env demo_interviewer demo_connecting.
Proof. apply after_reachable. vm_compute. discriminate. Qed.

Lemma isSpeaking_follows_speech_events_witness :
  isSpeaking (ui demo_connecting) = false
  /\ isSpeaking (ui (fst (turn demo_interview demo_env demo_interviewer
                               demo_connecting (Emitted SpeechStart)))) = true.
Proof.
  split; [vm_compute; reflexivity | ].
  apply (isSpeaking_follows_speech_events demo_interview demo_env demo_interviewer
           demo_connecting
           (fst (turn demo_interview demo_env demo_interviewer
                      demo_connecting (Emitted SpeechStart)))
           (Emitted SpeechStart)
           (snd (turn demo_interview demo_env demo_interviewer
                      demo_connecting (Emitted SpeechStart)))
           demo_connecting_reachable).
  vm_compute. reflexivity.
Defined.

Lemma navigation_only_when_finished_witness :
  let r := turn demo_generate demo_env demo_interviewer demo_generate_active
                (Emitted CallEnd) in
  pushes (snd r) = []
  \/ (pushes (snd r) = ["/"]
      /\ callStatus (ui (fst r)) = FINISHED
      /\ AgentProps.type demo_generate = generate).
Proof.
  cbv zeta.
  apply (navigation_only_when_finished demo_generate demo_env demo_interviewer
           demo_generate_active
           (fst (turn demo_generate demo_env demo_interviewer demo_generate_active
                      (Emitted CallEnd)))
           (Emitted CallEnd)
           (snd (turn demo_generate demo_env demo_interviewer demo_generate_active
                      (Emitted CallEnd)))).
  vm_compute. reflexivity.
Defined.

Lemma generate_agent_goes_home_witness :
  let r := turn demo_generate demo_env demo_interviewer demo_generate_active
                (Emitted CallEnd) in
  callStatus (ui demo_generate_active) <> FINISHED
  /\ callStatus (ui (fst r)) = FINISHED
  /\ feedback_calls (snd r) = []
  /\ pushes (snd r) = ["/"].
Proof.
  cbv zeta.
  split; [vm_compute; discriminate | ].
  split; [vm_compute; reflexivity | ].
  destruct (generate_agent_goes_home demo_generate demo_env demo_interviewer
              demo_generate_active
              (fst (turn demo_generate demo_env demo_interviewer
                         demo_generate_active (Emitted CallEnd)))
              (Emitted CallEnd)
              (snd (turn demo_generate demo_env demo_interviewer
                         demo_generate_active (Emitted CallEnd)))
              eq_refl
              ltac:(vm_compute; reflexivity)) as [Hcalls Hpush].
  split; [exact Hcalls | ].
  apply Hpush.
  - vm_compute. discriminate.
  - vm_compute. reflexivity.
Defined.

Lemma handleDisconnect_finishes_witness :
  callStatus (ui demo_active) = ACTIVE
  /\ exists m' out,
      step demo_interview demo_env demo_interviewer demo_active
           (Click_end (Some (new_Error "already stopped"))) = Some (m', out)
      /\ callStatus (ui m') = FINISHED
      /\ stop_calls out = 1.
Proof.
  split; [vm_compute; reflexivity | ].
  destruct (proj1 (handleDisconnect_finishes demo_interview demo_env demo_interviewer
                     demo_active (Some (new_Error "already stopped")))
              ltac:(vm_compute; reflexivity))
    as (m' & out & Hstep & Hstatus & Hstop & _).
  exists m', out. now repeat split.
Defined.

Lemma vapi_start_only_after_microphone_witness :
  let r := turn demo_interview demo_env demo_interviewer demo_clicked
                (Settled 0 (media_settled MediaGranted)) in
  (length (start_calls (snd r)) = 1 /\ alerts (snd r) = []
   /\ callStatus (ui (fst r)) = CONNECTING)
  \/ (start_calls (snd r) = [] /\ length (alerts (snd r)) = 1
      /\ callStatus (ui (fst r)) = INACTIVE).
Proof.
  cbv zeta.
  apply (vapi_start_only_after_microphone demo_interview demo_env demo_interviewer
           demo_clicked
           (fst (turn demo_interview demo_env demo_interviewer demo_clicked
                      (Settled 0 (media_settled MediaGranted))))
           (Settled 0 (media_settled MediaGranted))
           (snd (turn demo_interview demo_env demo_interviewer demo_clicked
                      (Settled 0 (media_settled MediaGranted))))).
  vm_compute. reflexivity.
Defined.

Lemma interview_start_witness :
  AgentProps.type demo_interview = interview
  /\ assoc 0 (awaiting demo_clicked) = Some (handleCall_getUserMedia INACTIVE)
  /\ exists m' out,
      step demo_interview demo_env demo_interviewer demo_clicked
           (Settled 0 (media_settled MediaGranted)) = Some (m', out)
      /\ start_calls out
         = [ (TargetAssistant "interviewer",
              {| variableValues := [("questions", "- Tell me about yourself")] |}) ]
      /\ callStatus (ui m') = CONNECTING.
Proof.
  split; [reflexivity | ].
  split; [vm_compute; reflexivity | ].
  destruct (interview_start demo_interview demo_env demo_interviewer demo_clicked
              0 INACTIVE eq_refl ltac:(vm_compute; reflexivity))
    as (m' & out & Hstep & Hstart & _ & Hstatus).
  exists m', out. now repeat split.
Defined.

Lemma connect_timeout_uses_captured_status_witness :
  assoc 1 (timers demo_connecting) = Some (connectTimeout_callback INACTIVE)
  /\ exists m' out,
      step demo_interview demo_env demo_interviewer demo_connecting (Timer_fired 1)
      = Some (m', out)
      /\ assoc 1 (timers m') = None
      /\ out = []
      /\ ui m' = ui demo_connecting.
Proof.
  split; [vm_compute; reflexivity | ].
  destruct (connect_timeout_uses_captured_status demo_interview demo_env
              demo_interviewer demo_connecting 1 INACTIVE
              ltac:(vm_compute; reflexivity))
    as (m' & out & Hstep & Hgone & _ & Hstale).
  exists m', out.
  destruct (Hstale ltac:(discriminate)) as [Hout Hui].
  now repeat split.
Defined.

Lemma settled_start_clears_timer_witness :
  assoc 2 (awaiting demo_connecting) = Some (handleCall_start 1)
  /\ exists m' out,
      step demo_interview demo_env demo_interviewer demo_connecting
           (Settled 2 (start_settled StartFulfilled)) = Some (m', out)
      /\ assoc 1 (timers m') = None.
Proof.
  split; [vm_compute; reflexivity | ].
  destruct (settled_start_clears_timer demo_interview demo_env demo_interviewer
              demo_connecting 2 1 StartFulfilled ltac:(vm_compute; reflexivity))
    as (m' & out & Hstep & Hgone & _).
  exists m', out. now split.
Defined.

Lemma onSubmit_rejection_witness :
  Submit.rejections (Submit.run (Submit.onSubmit sign_up demo_values) demo_taken_backend)
  = [Submit.thrown {| Submit.code := Some "auth/email-already-in-use" |}]
  /\ Submit.toasts (Submit.run (Submit.onSubmit sign_up demo_values) demo_taken_backend)
     = [Submit.toast_error "This email is already registered. Please sign in instead."]
  /\ Submit.rejections (Submit.run (Submit.onSubmit sign_in demo_values)
                          demo_null_backend)
     = [Submit.nullish]
  /\ Submit.toasts (Submit.run (Submit.onSubmit sign_in demo_values) demo_null_backend)
     = []
  /\ Submit.returns (Submit.onSubmit sign_in demo_values) demo_null_backend = false.
Proof.
  split; [reflexivity | ].
  split.
  - apply (proj1 (proj2 (proj2 (onSubmit_rejection sign_up demo_values
                                  demo_taken_backend)))
             {| Submit.code := Some "auth/email-already-in-use" |}).
    reflexivity.
  - split; [reflexivity | ].
    apply (proj1 (proj2 (proj2 (proj2 (onSubmit_rejection sign_in demo_values
                                         demo_null_backend))))).
    reflexivity.
Defined.

Lemma onSubmit_backend_calls_witness :
  let params := {| Submit.signIn_email := "ada@example.com";
                   Submit.signIn_idToken := "id-token" |} in
  In params (Submit.signIn_calls
               (Submit.run (Submit.onSubmit sign_in demo_values) demo_backend))
  /\ Submit.signIn_idToken params <> "".
Proof.
  cbv zeta. split; [now left | ].
  apply (proj2 (proj2 (onSubmit_backend_calls sign_in demo_values demo_backend))
           {| Submit.signIn_email := "ada@example.com";
              Submit.signIn_idToken := "id-token" |}).
  now left.
Defined.

Lemma handleSubmit_validated_witness :
  In ("ada@example.com", "correct horse")
     (Submit.firebase_calls
        (handleSubmit demo_is_email sign_up demo_sign_up_ok demo_backend))
  /\ demo_is_email "ada@example.com" = true
  /\ 6 <= String.length "correct horse".
Proof.
  split; [now left | ].
  destruct (proj2 (handleSubmit_validated demo_is_email sign_up demo_sign_up_ok
                     demo_backend)
              "ada@example.com" "correct horse" ltac:(now left))
    as (_ & Hvalid & _ & Hlen & _).
  now split.
Defined.

Lemma authFormSchema_accepts_iff_witness :
  accepts demo_is_email (FirebaseAuthForm.authFormSchema sign_up) demo_sign_up_ok = true
  /\ at_least 6 (password demo_sign_up_ok).
Proof.
  split; [reflexivity | ].
  apply (proj1 (proj2 (authFormSchema_accepts_iff demo_is_email sign_up
                         demo_sign_up_ok))).
  reflexivity.
Defined.

Lemma Home_sections_witness :
  HomePage.id demo_user <> ""
  /\ fst (HomePage.Home (Some demo_user) demo_home_backend)
     = [HomePage.getInterviewsByUserId "user-1"; HomePage.getLatestInterviews "user-1"].
Proof.
  split; [discriminate | ].
  apply (proj2 (Home_sections (Some demo_user) demo_home_backend)).
  discriminate.
Defined.

Lemma format_questions_app_witness :
  format_questions (["Why us?"] ++ ["Why you?"; "Any questions?"])
  = format_questions ["Why us?"] ++ LF ++ format_questions ["Why you?"; "Any questions?"].
Proof.
  apply (format_questions_app ["Why us?"] ["Why you?"; "Any questions?"]);
    discriminate.
Defined.

Lemma cleanup_silences_events_witness :
  let m := fst (mount demo_interview 0 initial) in
  listeners m = subscriptions 0
  /\ step demo_interview demo_env demo_interviewer (fst (unmount 0 m)) (Emitted CallEnd)
     = Some (fst (unmount 0 m), []).
Proof.
  cbv zeta. split; [reflexivity | ].
  apply (proj1 (cleanup_silences_events demo_interview demo_env demo_interviewer
                  (fst (mount demo_interview 0 initial)) 0 eq_refl)).
Defined.
